(** * CB Manager Lambda (examples/flashinfer/lambdas/cb-manager/index.py)

    A shallow embedding of the Capacity Block manager: the SSM-backed
    purchase lock, the reservation and offering queries against EC2, the
    offering selection and the [handler] that composes them.

    Modelling conventions.
    - The SSM parameter store is a [gmap string ssm_value]; a call that
      raises an error other than [ParameterNotFound] is selected by a fault
      flag of the invocation ([faults]).
    - EC2 is part of the [world]: the account's capacity reservations, the
      offering catalog the provider answers with, a counter for fresh
      reservation ids, and the log of offering ids submitted for purchase.
    - Datetimes coming from boto3 are represented by their [isoformat()]
      rendering (a string); the lock timestamp, written with [isoformat()]
      and read back with [fromisoformat()], is a [Z] count of microseconds.
    - Python dictionaries returned by the functions become records; the
      handler's response dictionaries become the constructors of
      [response]. *)

From Stdlib Require Import ZArith List Bool Lia Ascii String.
From stdpp Require Import base gmap strings pretty list.
Import ListNotations.

Open Scope Z_scope.

(** ** Python helpers *)

(** Truthiness of an optional string ([None] and [""] are falsy). *)
Definition truthy (o : option string) : bool :=
  match o with
  | Some s => negb (String.eqb s "")
  | None => false
  end.

(** [str.replace('.', '-')] *)
Fixpoint replace_dot (s : string) : string :=
  match s with
  | EmptyString => EmptyString
  | String c s' =>
      String (if Ascii.eqb c "."%char then "-"%char else c) (replace_dot s')
  end.

(** [str.lower()] on ASCII text. Labels are modelled as ASCII strings:
    Python's Unicode lowering of other characters (U+212A to k, ...) is
    not modelled. *)
Definition lower_char (c : Ascii.ascii) : Ascii.ascii :=
  let n := Ascii.nat_of_ascii c in
  if (65 <=? n)%nat && (n <=? 90)%nat then Ascii.ascii_of_nat (n + 32) else c.

Fixpoint lower (s : string) : string :=
  match s with
  | EmptyString => EmptyString
  | String c s' => String (lower_char c) (lower s')
  end.

(** ** Configuration (environment variables) *)

Record config := {
  DEFAULT_INSTANCE_TYPE : string;
  DURATION_HOURS : Z;
  AVAILABILITY_ZONE : string;
  SSM_PREFIX : string;
  (** the availability zones [ec2.describe_subnets(SubnetIds=SUBNET_IDS)]
      reports, [[]] when no subnet is configured *)
  SUBNET_AZS : list string;
  (** [list(set(azs))]: the distinct zones in the iteration order of a
      Python set, which depends on the string hash seed of the process *)
  SUBNET_SET_ORDER : list string -> list string
}.

(** Fault injection: which calls of one invocation raise a service error. *)
Record faults := {
  describe_all_fails : bool;     (* describe_capacity_reservations, all AZs *)
  describe_az_fails : bool;      (* describe_capacity_reservations, one AZ *)
  subnets_fail : bool;           (* describe_subnets *)
  lock_get_fails : bool;         (* ssm.get_parameter on the lock *)
  lock_delete_fails : bool;      (* ssm.delete_parameter of an expired lock *)
  lock_put_fails : bool;         (* ssm.put_parameter of the lock *)
  offerings_fail : bool;         (* describe_capacity_block_offerings *)
  purchase_fails : bool;         (* purchase_capacity_block *)
  store_info_fails : bool;       (* ssm.put_parameter of the CB info *)
  clear_fails : bool             (* ssm.delete_parameter in clear_purchase_lock *)
}.

Definition no_faults : faults :=
  {| describe_all_fails := false; describe_az_fails := false;
     subnets_fail := false; lock_get_fails := false;
     lock_delete_fails := false; lock_put_fails := false;
     offerings_fail := false; purchase_fails := false;
     store_info_fails := false; clear_fails := false |}.

(** ** Records of the EC2 API and of the module *)

(** An item of [CapacityReservations] in the EC2 response. *)
Module RawCR.
Record t := {
  CapacityReservationId : string;
  State : string;
  InstanceType : string;
  AvailabilityZone : string;
  AvailableInstanceCount : Z;
  TotalInstanceCount : Z;
  StartDate : option string;
  EndDate : option string
}.
End RawCR.

(** The dictionary built by [get_active_capacity_blocks]. *)
Module CB.
Record t := {
  reservation_id : string;
  state : string;
  instance_type : string;
  availability_zone : string;
  available_capacity : Z;
  total_capacity : Z;
  start_date : option string;
  end_date : option string
}.
End CB.

(** An item of [CapacityBlockOfferings] in the EC2 response. *)
Module RawOffering.
Record t := {
  CapacityBlockOfferingId : string;
  InstanceType : string;
  AvailabilityZone : option string;
  InstanceCount : Z;
  StartDate : string;
  EndDate : string;
  CapacityBlockDurationHours : Z;
  UpfrontFee : option string
}.
End RawOffering.

(** The dictionary built by [get_capacity_block_offerings]. *)
Module Offering.
Record t := {
  offering_id : string;
  instance_type : string;
  availability_zone : string;
  instance_count : Z;
  start_date : string;
  end_date : string;
  duration_hours : Z;
  upfront_fee : string
}.
End Offering.

(** Values stored in SSM: the purchase lock ([lock_data]) and the CB info
    written by [store_cb_info]. *)
Inductive ssm_value :=
| LockData (timestamp : Z) (instance_type : string)
| CbInfo (reservation_id instance_type availability_zone state : string)
         (start_date end_date : option string) (purchased_at : Z).

Record world := {
  ssm : gmap string ssm_value;
  reservations : list RawCR.t;
  catalog : list RawOffering.t;
  next_id : nat;
  submitted : list string
}.

Definition set_ssm (w : world) (m : gmap string ssm_value) : world :=
  {| ssm := m; reservations := reservations w; catalog := catalog w;
     next_id := next_id w; submitted := submitted w |}.

(** ** SSM client *)

Inductive ssm_error := ParameterNotFound | ServiceError.

Definition ssm_get_parameter (fails : bool) (name : string)
    (m : gmap string ssm_value) : ssm_error + ssm_value :=
  if fails then inl ServiceError else
  match m !! name with
  | Some v => inr v
  | None => inl ParameterNotFound
  end.

Definition ssm_delete_parameter (fails : bool) (name : string)
    (m : gmap string ssm_value) : (ssm_error + unit) * gmap string ssm_value :=
  if fails then (inl ServiceError, m) else
  match m !! name with
  | Some _ => (inr tt, delete name m)
  | None => (inl ParameterNotFound, m)
  end.

(** [put_parameter(..., Overwrite=True)] *)
Definition ssm_put_parameter (fails : bool) (name : string) (v : ssm_value)
    (m : gmap string ssm_value) : (ssm_error + unit) * gmap string ssm_value :=
  if fails then (inl ServiceError, m) else (inr tt, <[name := v]> m).

(** ** Purchase lock *)

(** [timedelta(minutes=10)] in microseconds. *)
Definition LOCK_TTL : Z := 600000000.

Definition lock_param_name (prefix instance_type : string) : string :=
  prefix +:+ "/purchase-lock-" +:+ replace_dot instance_type.

(** [check_purchase_lock]: [true] when locked. Every exception, the
    generic [except Exception] included, ends in [return False]. *)
Definition check_purchase_lock (f : faults) (now : Z) (prefix instance_type : string)
    (m : gmap string ssm_value) : bool * gmap string ssm_value :=
  let param_name := lock_param_name prefix instance_type in
  match ssm_get_parameter (lock_get_fails f) param_name m with
  | inl ParameterNotFound => (false, m)
  | inl ServiceError => (false, m)
  | inr (CbInfo _ _ _ _ _ _ _) => (false, m)  (* lock_data['timestamp'] raises *)
  | inr (LockData lock_time _) =>
      if LOCK_TTL <? now - lock_time then
        match ssm_delete_parameter (lock_delete_fails f) param_name m with
        | (inr tt, m') => (false, m')
        | (inl _, m') => (false, m')          (* caught: return False *)
        end
      else (true, m)
  end.

(** [set_purchase_lock]: [true] when the lock was acquired. *)
Definition set_purchase_lock (f : faults) (now : Z) (prefix instance_type : string)
    (m : gmap string ssm_value) : bool * gmap string ssm_value :=
  let '(locked, m1) := check_purchase_lock f now prefix instance_type m in
  if locked then (false, m1) else
  let param_name := lock_param_name prefix instance_type in
  match ssm_put_parameter (lock_put_fails f) param_name
          (LockData now instance_type) m1 with
  | (inr tt, m2) => (true, m2)
  | (inl _, m2) => (false, m2)
  end.

(** Outcome of a Python call returning [None]: normal return or an
    exception escaping the function. *)
Inductive py_result := Returned | Raised (e : ssm_error).

(** [clear_purchase_lock] *)
Definition clear_purchase_lock (f : faults) (prefix instance_type : string)
    (m : gmap string ssm_value) : py_result * gmap string ssm_value :=
  match ssm_delete_parameter (clear_fails f) (lock_param_name prefix instance_type) m with
  | (inr tt, m') => (Returned, m')
  | (inl ParameterNotFound, m') => (Returned, m')   (* pass *)
  | (inl ServiceError, m') => (Returned, m')        (* logger.warning *)
  end.

(** ** Label to instance type mapping *)

Definition LABEL_TO_INSTANCE_TYPE : list (string * string) :=
  [("b200", "p6-b200.48xlarge"); ("sm100", "p6-b200.48xlarge");
   ("blackwell", "p6-b200.48xlarge"); ("h100", "p5.48xlarge");
   ("sm90", "p5.48xlarge"); ("hopper", "p5.48xlarge")].

Fixpoint dict_get (k : string) (d : list (string * string)) : option string :=
  match d with
  | [] => None
  | (k', v) :: d' => if String.eqb k k' then Some v else dict_get k d'
  end.

Fixpoint get_instance_type_from_labels (labels : list string) : option string :=
  match labels with
  | [] => None
  | label :: rest =>
      match dict_get (lower label) LABEL_TO_INSTANCE_TYPE with
      | Some it => Some it
      | None => get_instance_type_from_labels rest
      end
  end.

(** [get_subnet_availability_zones]: [[]] without subnets or when
    [describe_subnets] raises, else [list(set(...))] of the reported zones. *)
Definition get_subnet_availability_zones (cfg : config) (f : faults) : list string :=
  match SUBNET_AZS cfg with
  | [] => []
  | azs => if subnets_fail f then [] else SUBNET_SET_ORDER cfg azs
  end.

(** ** Reservation discovery *)

Definition in_states (s : string) (states : list string) : bool :=
  existsb (String.eqb s) states.

(** Server-side [Filters]: instance type, state, and the AZ when given. *)
Definition describe_filter (instance_type : string) (availability_zone : option string)
    (cr : RawCR.t) : bool :=
  String.eqb (RawCR.InstanceType cr) instance_type
  && in_states (RawCR.State cr) ["active"; "pending"; "payment-pending"]
  && (if truthy availability_zone then
        match availability_zone with
        | Some az => String.eqb (RawCR.AvailabilityZone cr) az
        | None => true
        end
      else true).

Definition has_end_date (cr : RawCR.t) : bool :=
  match RawCR.EndDate cr with Some _ => true | None => false end.

Definition cb_of_raw (cr : RawCR.t) : CB.t :=
  {| CB.reservation_id := RawCR.CapacityReservationId cr;
     CB.state := RawCR.State cr;
     CB.instance_type := RawCR.InstanceType cr;
     CB.availability_zone := RawCR.AvailabilityZone cr;
     CB.available_capacity := RawCR.AvailableInstanceCount cr;
     CB.total_capacity := RawCR.TotalInstanceCount cr;
     CB.start_date := RawCR.StartDate cr;
     CB.end_date := RawCR.EndDate cr |}.

(** [get_active_capacity_blocks]: on an exception the result is [[]]. *)
Definition get_active_capacity_blocks (fails : bool) (instance_type : string)
    (availability_zone : option string) (w : world) : list CB.t :=
  if fails then [] else
  map cb_of_raw
    (List.filter has_end_date
       (List.filter (describe_filter instance_type availability_zone) (reservations w))).

(** ** Offering catalog *)

(** The provider answers [describe_capacity_block_offerings] for the
    instance type and duration from its catalog (the date window is applied
    by the provider when it fills [catalog]). *)
Definition describe_capacity_block_offerings (instance_type : string)
    (duration_hours : Z) (w : world) : list RawOffering.t :=
  List.filter (fun o => String.eqb (RawOffering.InstanceType o) instance_type
                   && Z.eqb (RawOffering.CapacityBlockDurationHours o) duration_hours)
    (catalog w).

Definition offering_of_raw (o : RawOffering.t) : Offering.t :=
  {| Offering.offering_id := RawOffering.CapacityBlockOfferingId o;
     Offering.instance_type := RawOffering.InstanceType o;
     Offering.availability_zone := default "" (RawOffering.AvailabilityZone o);
     Offering.instance_count := RawOffering.InstanceCount o;
     Offering.start_date := RawOffering.StartDate o;
     Offering.end_date := RawOffering.EndDate o;
     Offering.duration_hours := RawOffering.CapacityBlockDurationHours o;
     Offering.upfront_fee := default "unknown" (RawOffering.UpfrontFee o) |}.

(** [get_capacity_block_offerings], with the client-side AZ filter. *)
Definition get_capacity_block_offerings (fails : bool) (instance_type : string)
    (duration_hours : Z) (availability_zone : option string) (w : world)
    : list Offering.t :=
  if fails then [] else
  map offering_of_raw
    (List.filter (fun o =>
               let offering_az := default "" (RawOffering.AvailabilityZone o) in
               negb (truthy availability_zone
                     && negb (String.eqb offering_az (default "" availability_zone))))
       (describe_capacity_block_offerings instance_type duration_hours w)).

(** ** Offering selection *)

(** Python compares the [start_date] strings code point by code point. *)
Definition start_leb (a b : Offering.t) : bool :=
  String.leb (Offering.start_date a) (Offering.start_date b).

(** [list.sort(key=...)] is stable: an element goes before the elements
    with a key that is not smaller. Elements are inserted from the back,
    so an earlier element precedes later equal ones. *)
Fixpoint insert_by_start (x : Offering.t) (l : list Offering.t) : list Offering.t :=
  match l with
  | [] => [x]
  | y :: l' => if start_leb x y then x :: y :: l' else y :: insert_by_start x l'
  end.

Definition sort_by_start (l : list Offering.t) : list Offering.t :=
  fold_right insert_by_start [] l.

(** [offerings.sort(key=lambda x: x['start_date']); offerings[0]] *)
Definition select_offering (offerings : list Offering.t) : option Offering.t :=
  head (sort_by_start offerings).

(** ** Purchase *)

Definition new_reservation_id (n : nat) : string := "cr-" +:+ pretty n.

Fixpoint find_offering (oid : string) (l : list RawOffering.t) : option RawOffering.t :=
  match l with
  | [] => None
  | o :: l' =>
      if String.eqb (RawOffering.CapacityBlockOfferingId o) oid then Some o
      else find_offering oid l'
  end.

(** The provider's side of [ec2.purchase_capacity_block]: the offering is
    consumed and a payment-pending reservation is created. *)
Definition ec2_purchase_capacity_block (oid : string) (w : world)
    : option RawCR.t * world :=
  let w0 := {| ssm := ssm w; reservations := reservations w; catalog := catalog w;
               next_id := next_id w; submitted := submitted w ++ [oid] |} in
  match find_offering oid (catalog w) with
  | None => (None, w0)
  | Some o =>
      let cr := {| RawCR.CapacityReservationId := new_reservation_id (next_id w);
                   RawCR.State := "payment-pending";
                   RawCR.InstanceType := RawOffering.InstanceType o;
                   RawCR.AvailabilityZone := default "" (RawOffering.AvailabilityZone o);
                   RawCR.AvailableInstanceCount := RawOffering.InstanceCount o;
                   RawCR.TotalInstanceCount := RawOffering.InstanceCount o;
                   RawCR.StartDate := Some (RawOffering.StartDate o);
                   RawCR.EndDate := Some (RawOffering.EndDate o) |} in
      (Some cr,
       {| ssm := ssm w;
          reservations := reservations w ++ [cr];
          catalog := List.filter (fun o' => negb (String.eqb
                                (RawOffering.CapacityBlockOfferingId o') oid)) (catalog w);
          next_id := S (next_id w);
          submitted := submitted w ++ [oid] |})
  end.

(** [store_cb_info]: failures are only logged. *)
Definition store_cb_info (f : faults) (now : Z) (prefix : string) (cr : RawCR.t)
    (m : gmap string ssm_value) : gmap string ssm_value :=
  let param_name := prefix +:+ "/active-cb/" +:+ RawCR.CapacityReservationId cr in
  snd (ssm_put_parameter (store_info_fails f) param_name
         (CbInfo (RawCR.CapacityReservationId cr) (RawCR.InstanceType cr)
                 (RawCR.AvailabilityZone cr) (RawCR.State cr)
                 (RawCR.StartDate cr) (RawCR.EndDate cr) now) m).

(** [purchase_capacity_block]: the reservation id, or [None] on failure. *)
Definition purchase_capacity_block (f : faults) (now : Z) (prefix oid : string)
    (w : world) : option string * world :=
  if purchase_fails f then
    (None, {| ssm := ssm w; reservations := reservations w; catalog := catalog w;
              next_id := next_id w; submitted := submitted w ++ [oid] |})
  else
  match ec2_purchase_capacity_block oid w with
  | (None, w1) => (None, w1)
  | (Some cr, w1) =>
      (Some (RawCR.CapacityReservationId cr),
       set_ssm w1 (store_cb_info f now prefix cr (ssm w1)))
  end.

(** ** Handler *)

(** The invocation event; [None] is a missing key. *)
Module Event.
Record t := {
  action : option string;
  labels : option (list string);
  duration_hours : option Z;
  instance_type : option string;
  availability_zone : option string
}.
End Event.

(** The response dictionaries of [handler], one constructor per [return]. *)
Inductive response :=
| Resp_status (action instance_type : string) (availability_zone : option string)
              (active_capacity_blocks : list CB.t) (has_active_cb : bool)
| Resp_exists (capacity_block : CB.t)
| Resp_pending (capacity_block : CB.t)
| Resp_locked (instance_type : string)
| Resp_no_offerings (instance_type : string)
| Resp_purchased (reservation_id : string) (offering : Offering.t)
| Resp_failed
| Resp_unknown_action (action : string).

Definition statusCode (r : response) : Z :=
  match r with
  | Resp_status _ _ _ _ _ | Resp_exists _ | Resp_pending _ | Resp_locked _
  | Resp_purchased _ _ => 200
  | Resp_no_offerings _ => 404
  | Resp_failed => 500
  | Resp_unknown_action _ => 400
  end.

Definition result (r : response) : option string :=
  match r with
  | Resp_status _ _ _ _ _ | Resp_unknown_action _ => None
  | Resp_exists _ => Some "exists"
  | Resp_pending _ => Some "pending"
  | Resp_locked _ => Some "locked"
  | Resp_no_offerings _ => Some "no_offerings"
  | Resp_purchased _ _ => Some "purchased"
  | Resp_failed => Some "failed"
  end.

(** Instance type: explicit > from labels > default. *)
Definition resolve_instance_type (cfg : config) (ev : Event.t) : string :=
  let labels := default [] (Event.labels ev) in
  let it0 := Event.instance_type ev in
  let it1 := if negb (truthy it0) && negb (bool_decide (labels = []))
             then get_instance_type_from_labels labels else it0 in
  if truthy it1 then default "" it1 else DEFAULT_INSTANCE_TYPE cfg.

(** [az = event.get('availability_zone', AVAILABILITY_ZONE)], then the
    first subnet AZ when falsy. *)
Definition resolve_az (cfg : config) (f : faults) (ev : Event.t) : option string :=
  let az0 := match Event.availability_zone ev with
             | Some a => Some a
             | None => Some (AVAILABILITY_ZONE cfg)
             end in
  if truthy az0 then az0 else
  match get_subnet_availability_zones cfg f with
  | a :: _ => Some a
  | [] => None
  end.

Definition is_active (cb : CB.t) : bool := String.eqb (CB.state cb) "active".

Definition is_pending (cb : CB.t) : bool :=
  in_states (CB.state cb) ["pending"; "payment-pending"].

(** The [action == 'purchase'] block: lock, select, purchase, and the
    [finally: clear_purchase_lock(instance_type)]. *)
Definition purchase_flow (cfg : config) (f : faults) (now : Z) (instance_type : string)
    (duration_hours : Z) (az : option string) (w : world) : response * world :=
  let prefix := SSM_PREFIX cfg in
  let '(acquired, m1) := set_purchase_lock f now prefix instance_type (ssm w) in
  let w1 := set_ssm w m1 in
  if negb acquired then (Resp_locked instance_type, w1) else
  let '(resp, w2) :=
    let offerings := get_capacity_block_offerings (offerings_fail f) instance_type
                       duration_hours az w1 in
    match select_offering offerings with
    | None => (Resp_no_offerings instance_type, w1)
    | Some selected_offering =>
        match purchase_capacity_block f now prefix
                (Offering.offering_id selected_offering) w1 with
        | (Some reservation_id, w2) => (Resp_purchased reservation_id selected_offering, w2)
        | (None, w2) => (Resp_failed, w2)
        end
    end in
  (resp, set_ssm w2 (snd (clear_purchase_lock f prefix instance_type (ssm w2)))).

(** [handler]. In the source the [ensure] branch falls through to the
    [purchase] block by rebinding [action = 'purchase']. *)
Definition handler (cfg : config) (f : faults) (now : Z) (ev : Event.t) (w : world)
    : response * world :=
  let action := default "ensure" (Event.action ev) in
  let duration_hours := default (DURATION_HOURS cfg) (Event.duration_hours ev) in
  let instance_type := resolve_instance_type cfg ev in
  let az := resolve_az cfg f ev in
  let active_cbs_all_az :=
    get_active_capacity_blocks (describe_all_fails f) instance_type None w in
  let _active_cbs_this_az :=
    if truthy az then get_active_capacity_blocks (describe_az_fails f) instance_type az w
    else active_cbs_all_az in
  if String.eqb action "check" || String.eqb action "status" then
    (Resp_status action instance_type az active_cbs_all_az
       (0 <? Z.of_nat (length active_cbs_all_az)), w)
  else if String.eqb action "ensure" then
    match List.filter is_active active_cbs_all_az with
    | cb :: _ => (Resp_exists cb, w)
    | [] =>
        match List.filter is_pending active_cbs_all_az with
        | cb :: _ => (Resp_pending cb, w)
        | [] => purchase_flow cfg f now instance_type duration_hours az w
        end
    end
  else if String.eqb action "purchase" then
    purchase_flow cfg f now instance_type duration_hours az w
  else (Resp_unknown_action action, w).

(** ** Concurrent [ensure] invocations *)

(** Each invocation of [handler] with action [ensure] is an independent
    process; its calls to EC2 and SSM are the atomic steps, and the only
    shared state is the [world]. [phase] is the program point of one
    invocation after the instance type, duration and AZ are resolved. *)
Inductive phase :=
| Start                     (* before describe_capacity_reservations *)
| Check_lock                (* no CB seen: set_purchase_lock calls check_purchase_lock *)
| Put_lock                  (* lock seen free: ssm.put_parameter of the lock *)
| Buy                       (* lock held: offerings, selection, purchase *)
| Release (r : response)    (* finally: clear_purchase_lock *)
| Done (r : response).

Section Invocation.
Variable cfg : config.
Variable now : Z.
Variable instance_type : string.
Variable duration_hours : Z.
Variable az : option string.

Definition buy (w : world) : response * world :=
  let prefix := SSM_PREFIX cfg in
  let offerings := get_capacity_block_offerings false instance_type
                     duration_hours az w in
  match select_offering offerings with
  | None => (Resp_no_offerings instance_type, w)
  | Some o =>
      match purchase_capacity_block no_faults now prefix (Offering.offering_id o) w with
      | (Some rid, w2) => (Resp_purchased rid o, w2)
      | (None, w2) => (Resp_failed, w2)
      end
  end.

(** One atomic step of an [ensure] invocation without faults. *)
Definition ensure_step (p : phase) (w : world) : phase * world :=
  let prefix := SSM_PREFIX cfg in
  match p with
  | Start =>
      let active_cbs_all_az := get_active_capacity_blocks false instance_type None w in
      match List.filter is_active active_cbs_all_az with
      | cb :: _ => (Done (Resp_exists cb), w)
      | [] =>
          match List.filter is_pending active_cbs_all_az with
          | cb :: _ => (Done (Resp_pending cb), w)
          | [] => (Check_lock, w)
          end
      end
  | Check_lock =>
      let '(locked, m1) := check_purchase_lock no_faults now prefix instance_type (ssm w) in
      if locked then (Done (Resp_locked instance_type), set_ssm w m1)
      else (Put_lock, set_ssm w m1)
  | Put_lock =>
      match ssm_put_parameter false (lock_param_name prefix instance_type)
              (LockData now instance_type) (ssm w) with
      | (inr tt, m2) => (Buy, set_ssm w m2)
      | (inl _, m2) => (Done (Resp_locked instance_type), set_ssm w m2)
      end
  | Buy => let '(r, w2) := buy w in (Release r, w2)
  | Release r =>
      (Done r, set_ssm w (snd (clear_purchase_lock no_faults prefix instance_type (ssm w))))
  | Done r => (Done r, w)
  end.

(** A system of concurrent invocations sharing one world. *)
Record sys := { procs : list phase; shared : world }.

(** The scheduler runs one step of invocation [i]. *)
Definition sys_step (s : sys) (i : nat) : sys :=
  match procs s !! i with
  | Some p =>
      let '(p', w') := ensure_step p (shared s) in
      {| procs := <[i := p']> (procs s); shared := w' |}
  | None => s
  end.

Definition run (schedule : list nat) (s : sys) : sys := fold_left sys_step schedule s.

(** One invocation running alone. *)
Fixpoint run_alone (n : nat) (p : phase) (w : world) : phase * world :=
  match n with
  | O => (p, w)
  | S n' => let '(p', w') := ensure_step p w in run_alone n' p' w'
  end.
End Invocation.

Definition purchased (p : phase) : bool :=
  match p with Done (Resp_purchased _ _) => true | _ => false end.

(** ** Sample data *)

Definition cfg0 : config :=
  {| DEFAULT_INSTANCE_TYPE := "p6-b200.48xlarge"; DURATION_HOURS := 24;
     AVAILABILITY_ZONE := ""; SSM_PREFIX := "/flashinfer/capacity-blocks";
     SUBNET_AZS := ["us-east-1a"]; SUBNET_SET_ORDER := nodup string_dec |}.

Definition raw_offer (oid az start end_ : string) : RawOffering.t :=
  {| RawOffering.CapacityBlockOfferingId := oid;
     RawOffering.InstanceType := "p6-b200.48xlarge";
     RawOffering.AvailabilityZone := Some az;
     RawOffering.InstanceCount := 1;
     RawOffering.StartDate := start; RawOffering.EndDate := end_;
     RawOffering.CapacityBlockDurationHours := 24;
     RawOffering.UpfrontFee := Some "1000.00" |}.

(** Offers starting at T+3d, T+1d and T+7d, T = 2026-10-17T12:00 UTC. *)
Definition offer_3d := raw_offer "cbr-3d" "us-east-1a"
  "2026-10-20T12:00:00+00:00" "2026-10-21T12:00:00+00:00".
Definition offer_1d := raw_offer "cbr-1d" "us-east-1a"
  "2026-10-18T12:00:00+00:00" "2026-10-19T12:00:00+00:00".
Definition offer_7d := raw_offer "cbr-7d" "us-east-1a"
  "2026-10-24T12:00:00+00:00" "2026-10-25T12:00:00+00:00".

Definition raw_cr (rid state az : string) : RawCR.t :=
  {| RawCR.CapacityReservationId := rid; RawCR.State := state;
     RawCR.InstanceType := "p6-b200.48xlarge"; RawCR.AvailabilityZone := az;
     RawCR.AvailableInstanceCount := 1; RawCR.TotalInstanceCount := 1;
     RawCR.StartDate := Some "2026-10-17T11:30:00+00:00";
     RawCR.EndDate := Some "2026-10-18T11:30:00+00:00" |}.

Definition world_of (crs : list RawCR.t) (offers : list RawOffering.t) : world :=
  {| ssm := ∅; reservations := crs; catalog := offers; next_id := 0%nat;
     submitted := [] |}.

Definition ensure_event (it az : option string) : Event.t :=
  {| Event.action := Some "ensure"; Event.labels := None;
     Event.duration_hours := None; Event.instance_type := it;
     Event.availability_zone := az |}.

(** T = 2026-10-17T12:00:00Z in microseconds since the epoch. *)
Definition T0 : Z := 1792238400000000.

Example handler_purchases_earliest :
  result (fst (handler cfg0 no_faults T0 (ensure_event None None)
                 (world_of [] [offer_3d; offer_1d; offer_7d])))
  = Some "purchased"
  /\ submitted (snd (handler cfg0 no_faults T0 (ensure_event None None)
                 (world_of [] [offer_3d; offer_1d; offer_7d]))) = ["cbr-1d"].
Proof. vm_compute. split; reflexivity. Qed.

Example handler_releases_lock :
  ssm (snd (handler cfg0 no_faults T0 (ensure_event None None)
              (world_of [] [offer_3d; offer_1d; offer_7d])))
    !! lock_param_name "/flashinfer/capacity-blocks" "p6-b200.48xlarge" = None.
Proof. vm_compute. reflexivity. Qed.

(** * Properties *)

(** ** Lexicographic order on strings *)

Lemma str_compare_refl (s : string) : String.compare s s = Eq.
Proof.
  induction s as [|c s IH]; simpl; [reflexivity|].
  unfold Ascii.compare. rewrite N.compare_refl. exact IH.
Qed.

Lemma str_compare_le_trans (a b c : string) :
  String.compare a b <> Gt -> String.compare b c <> Gt -> String.compare a c <> Gt.
Proof.
  revert b c.
  induction a as [|x a IH]; intros [|y b] [|z c]; simpl; try congruence.
  unfold Ascii.compare.
  destruct (N.compare_spec (N_of_ascii x) (N_of_ascii y)) as [Hxy|Hxy|Hxy];
  destruct (N.compare_spec (N_of_ascii y) (N_of_ascii z)) as [Hyz|Hyz|Hyz];
  destruct (N.compare_spec (N_of_ascii x) (N_of_ascii z)) as [Hxz|Hxz|Hxz];
  intros H1 H2; try congruence; try lia.
  apply (IH b c); assumption.
Qed.

Lemma str_leb_refl (s : string) : String.leb s s = true.
Proof. unfold String.leb. rewrite str_compare_refl. reflexivity. Qed.

Lemma str_leb_trans (a b c : string) :
  String.leb a b = true -> String.leb b c = true -> String.leb a c = true.
Proof.
  unfold String.leb.
  intros H1 H2.
  destruct (String.compare a c) eqn:E; try reflexivity.
  exfalso. apply (str_compare_le_trans a b c); [| | exact E];
    intro E'; rewrite E' in *; discriminate.
Qed.

Lemma str_leb_false_ltb (a b : string) :
  String.leb a b = false -> String.ltb b a = true /\ String.leb b a = true.
Proof.
  unfold String.leb, String.ltb. rewrite (String.compare_antisym b a).
  destruct (String.compare a b); simpl; intros; try discriminate; split; reflexivity.
Qed.

(** ** Offering selection *)

Lemma head_insert_by_start (x : Offering.t) (l : list Offering.t) :
  head (insert_by_start x l) =
    match head l with
    | None => Some x
    | Some y => if start_leb x y then Some x else Some y
    end.
Proof.
  destruct l as [|y l]; simpl; [reflexivity|].
  destruct (start_leb x y); reflexivity.
Qed.

Lemma sort_by_start_nil (l : list Offering.t) : sort_by_start l = [] -> l = [].
Proof.
  destruct l as [|x l]; [reflexivity|]. unfold sort_by_start; simpl.
  destruct (fold_right insert_by_start [] l) as [|y l'];
    simpl; [discriminate|destruct (start_leb x y); discriminate].
Qed.

(** ** Lease manager *)

Ltac lock_unfold :=
  unfold set_purchase_lock, check_purchase_lock, ssm_get_parameter,
    ssm_delete_parameter, ssm_put_parameter.

(** ** C4
    For every non-empty list of offerings, the offering selected for
    purchase is one with the minimum start timestamp (the [start_date]
    strings compared as Python compares them), and every offering listed
    before it starts strictly later: ties go to the first encountered. *)
Theorem select_offering_earliest (offerings : list Offering.t) :
  offerings <> [] ->
  exists sel pre post,
    select_offering offerings = Some sel /\
    offerings = pre ++ sel :: post /\
    (forall o, In o offerings ->
       String.leb (Offering.start_date sel) (Offering.start_date o) = true) /\
    (forall o, In o pre ->
       String.ltb (Offering.start_date sel) (Offering.start_date o) = true).
Proof.
  unfold select_offering.
  induction offerings as [|x l IH]; intros Hne; [congruence|].
  destruct l as [|y l].
  - exists x, [], []. simpl. split; [reflexivity|]. split; [reflexivity|].
    split; [intros o [<-|[]]; apply str_leb_refl|intros o []].
  - destruct IH as (sel' & pre' & post' & Hh & Hl & Hle & Hlt); [discriminate|].
    change (sort_by_start (x :: y :: l)) with (insert_by_start x (sort_by_start (y :: l))).
    rewrite head_insert_by_start, Hh.
    destruct (start_leb x sel') eqn:Hx.
    + exists x, [], (y :: l). split; [reflexivity|]. split; [reflexivity|].
      split.
      * intros o [<-|Ho]; [apply str_leb_refl|].
        apply str_leb_trans with (Offering.start_date sel'); [exact Hx|].
        apply Hle, Ho.
      * intros o [].
    + apply str_leb_false_ltb in Hx as [Hxlt Hxle].
      exists sel', (x :: pre'), post'. split; [reflexivity|].
      split; [|split].
      * simpl. rewrite <- Hl. reflexivity.
      * intros o [<-|Ho]; [exact Hxle|apply Hle, Ho].
      * intros o [<-|Ho]; [exact Hxlt|apply Hlt, Ho].
Qed.

Lemma select_offering_earliest_witness :
  [offering_of_raw offer_3d; offering_of_raw offer_1d; offering_of_raw offer_7d] <> []
  /\ select_offering [offering_of_raw offer_3d; offering_of_raw offer_1d;
                      offering_of_raw offer_7d] = Some (offering_of_raw offer_1d)
  /\ exists sel pre post,
    select_offering [offering_of_raw offer_3d; offering_of_raw offer_1d;
                     offering_of_raw offer_7d] = Some sel /\
    [offering_of_raw offer_3d; offering_of_raw offer_1d; offering_of_raw offer_7d]
      = pre ++ sel :: post /\
    (forall o, In o [offering_of_raw offer_3d; offering_of_raw offer_1d;
                     offering_of_raw offer_7d] ->
       String.leb (Offering.start_date sel) (Offering.start_date o) = true) /\
    (forall o, In o pre ->
       String.ltb (Offering.start_date sel) (Offering.start_date o) = true).
Proof.
  split; [discriminate|]. split; [vm_compute; reflexivity|].
  apply (select_offering_earliest
           [offering_of_raw offer_3d; offering_of_raw offer_1d; offering_of_raw offer_7d]).
  discriminate.
Defined.

(** ** C5
    A lease older than ten minutes is deleted by the next
    [set_purchase_lock] call, which then writes its own lease and grants,
    whatever timestamp and instance type the old lease carries; a lease
    aged ten minutes or less makes the call report denied. *)
Theorem lock_expired_reclaimed (f : faults) (now ts : Z) (prefix it it' : string)
    (m : gmap string ssm_value) :
  lock_get_fails f = false ->
  m !! lock_param_name prefix it = Some (LockData ts it') ->
  (LOCK_TTL < now - ts ->
   lock_delete_fails f = false -> lock_put_fails f = false ->
   check_purchase_lock f now prefix it m = (false, delete (lock_param_name prefix it) m) /\
   set_purchase_lock f now prefix it m =
     (true, <[lock_param_name prefix it := LockData now it]>
              (delete (lock_param_name prefix it) m))) /\
  (now - ts <= LOCK_TTL -> set_purchase_lock f now prefix it m = (false, m)).
Proof.
  intros Hget Hm. split.
  - intros Hage Hdel Hput.
    assert (Hc : check_purchase_lock f now prefix it m =
                 (false, delete (lock_param_name prefix it) m)).
    { unfold check_purchase_lock, ssm_get_parameter, ssm_delete_parameter.
      rewrite Hget, Hm, Hdel.
      replace (LOCK_TTL <? now - ts) with true by lia. reflexivity. }
    split; [exact Hc|].
    unfold set_purchase_lock. rewrite Hc. unfold ssm_put_parameter. rewrite Hput.
    reflexivity.
  - intros Hage. lock_unfold. rewrite Hget, Hm.
    replace (LOCK_TTL <? now - ts) with false by lia. reflexivity.
Qed.

Lemma lock_expired_reclaimed_witness :
  let k := lock_param_name "/flashinfer/capacity-blocks" "p5.48xlarge" in
  let m := {[k := LockData (T0 - 700000000) "p5.48xlarge"]} : gmap string ssm_value in
  set_purchase_lock no_faults T0 "/flashinfer/capacity-blocks" "p5.48xlarge" m
    = (true, {[k := LockData T0 "p5.48xlarge"]}).
Proof.
  intros k m.
  destruct (lock_expired_reclaimed no_faults T0 (T0 - 700000000)
              "/flashinfer/capacity-blocks" "p5.48xlarge" "p5.48xlarge" m
              eq_refl (lookup_insert_eq _ _ _)) as [H _].
  destruct (H ltac:(unfold LOCK_TTL; lia) eq_refl eq_refl) as [_ ->].
  unfold m. rewrite delete_singleton_eq. rewrite insert_empty. reflexivity.
Defined.

(** ** C3 (as stated)
    A read error on the lease does not deny: with an unexpired lease in
    the store and [ssm.get_parameter] failing, [set_purchase_lock] grants
    and overwrites the lease. *)
Lemma lock_read_error_grants :
  let k := lock_param_name "/flashinfer/capacity-blocks" "p5.48xlarge" in
  let f := {| describe_all_fails := false; describe_az_fails := false;
              subnets_fail := false; lock_get_fails := true;
              lock_delete_fails := false; lock_put_fails := false;
              offerings_fail := false; purchase_fails := false;
              store_info_fails := false; clear_fails := false |} in
  let m := {[k := LockData (T0 - 1000000) "p5.48xlarge"]} : gmap string ssm_value in
  set_purchase_lock f T0 "/flashinfer/capacity-blocks" "p5.48xlarge" m
    = (true, {[k := LockData T0 "p5.48xlarge"]}).
Proof.
  intros k f m. lock_unfold. simpl. unfold m. rewrite insert_singleton. reflexivity.
Qed.

(** ** C3 (amended)
    When reading the lease fails, [check_purchase_lock] reports the lock
    free (fail open) and [set_purchase_lock] writes a fresh lease: it
    grants when that write succeeds and denies, leaving the store
    unchanged, when the write fails. *)
Theorem lock_read_error_fails_open (f : faults) (now : Z) (prefix it : string)
    (m : gmap string ssm_value) :
  lock_get_fails f = true ->
  check_purchase_lock f now prefix it m = (false, m) /\
  set_purchase_lock f now prefix it m =
    if lock_put_fails f then (false, m)
    else (true, <[lock_param_name prefix it := LockData now it]> m).
Proof.
  intros Hget. lock_unfold. rewrite Hget. split; [reflexivity|].
  destruct (lock_put_fails f); reflexivity.
Qed.

Lemma lock_read_error_fails_open_witness :
  let f := {| describe_all_fails := false; describe_az_fails := false;
              subnets_fail := false; lock_get_fails := true;
              lock_delete_fails := false; lock_put_fails := false;
              offerings_fail := false; purchase_fails := false;
              store_info_fails := false; clear_fails := false |} in
  check_purchase_lock f T0 "/p" "p5.48xlarge" ∅ = (false, ∅) /\
  set_purchase_lock f T0 "/p" "p5.48xlarge" ∅ =
    (true, <[lock_param_name "/p" "p5.48xlarge" := LockData T0 "p5.48xlarge"]> ∅).
Proof. intros f. apply (lock_read_error_fails_open f T0 "/p" "p5.48xlarge" ∅). reflexivity. Defined.

(** ** C10
    A [set_purchase_lock] call denied because an unexpired lease exists
    leaves the store unchanged; and any denied call either leaves the
    store unchanged or has deleted a lease older than ten minutes. *)
Theorem denied_lock_frame (f : faults) (now : Z) (prefix it : string)
    (m m' : gmap string ssm_value) :
  (forall ts it', lock_get_fails f = false ->
     m !! lock_param_name prefix it = Some (LockData ts it') -> now - ts <= LOCK_TTL ->
     set_purchase_lock f now prefix it m = (false, m)) /\
  (set_purchase_lock f now prefix it m = (false, m') ->
   m' = m \/
   exists ts it', m !! lock_param_name prefix it = Some (LockData ts it') /\
                  LOCK_TTL < now - ts /\ m' = delete (lock_param_name prefix it) m).
Proof.
  split.
  - intros ts it' Hget Hm Hage. lock_unfold. rewrite Hget, Hm.
    replace (LOCK_TTL <? now - ts) with false by lia. reflexivity.
  - lock_unfold.
    destruct (lock_get_fails f); [destruct (lock_put_fails f); simpl; intros H;
                                  inversion H; auto|].
    destruct (m !! lock_param_name prefix it) as [[ts it'|]|] eqn:Hm;
      [|destruct (lock_put_fails f); simpl; intros H; inversion H; auto
       |destruct (lock_put_fails f); simpl; intros H; inversion H; auto].
    destruct (LOCK_TTL <? now - ts) eqn:Hage;
      [|intros H; inversion H; auto].
    apply Z.ltb_lt in Hage.
    destruct (lock_delete_fails f), (lock_put_fails f); simpl; intros H;
      inversion H; subst; auto; right; exists ts, it'; auto.
Qed.

Lemma denied_lock_frame_witness :
  let k := lock_param_name "/p" "p5.48xlarge" in
  let m := {[k := LockData (T0 - 1000000) "p5.48xlarge"]} : gmap string ssm_value in
  set_purchase_lock no_faults T0 "/p" "p5.48xlarge" m = (false, m).
Proof.
  intros k m.
  apply (proj1 (denied_lock_frame no_faults T0 "/p" "p5.48xlarge" m m)
           (T0 - 1000000) "p5.48xlarge" eq_refl (lookup_insert_eq _ _ _)).
  unfold LOCK_TTL. lia.
Defined.

(** ** C9
    [clear_purchase_lock] never lets an exception escape; on a store with
    no lease it changes nothing; and, when the SSM call succeeds, calling
    it twice leaves the same store as calling it once. *)
Theorem clear_lock_idempotent (f : faults) (prefix it : string)
    (m : gmap string ssm_value) :
  fst (clear_purchase_lock f prefix it m) = Returned /\
  (m !! lock_param_name prefix it = None -> snd (clear_purchase_lock f prefix it m) = m) /\
  (clear_fails f = false ->
   snd (clear_purchase_lock f prefix it (snd (clear_purchase_lock f prefix it m)))
   = snd (clear_purchase_lock f prefix it m)).
Proof.
  unfold clear_purchase_lock, ssm_delete_parameter.
  destruct (clear_fails f); [repeat split; reflexivity|].
  cbv beta iota.
  destruct (m !! lock_param_name prefix it) eqn:Hm; simpl.
  - split; [reflexivity|]. split; [discriminate|].
    intros _. rewrite lookup_delete_eq. reflexivity.
  - split; [reflexivity|]. split; [reflexivity|]. intros _. rewrite Hm. reflexivity.
Qed.

Lemma clear_lock_idempotent_witness :
  let k := lock_param_name "/p" "p5.48xlarge" in
  let m := {[k := LockData T0 "p5.48xlarge"]} : gmap string ssm_value in
  fst (clear_purchase_lock no_faults "/p" "p5.48xlarge" ∅) = Returned /\
  snd (clear_purchase_lock no_faults "/p" "p5.48xlarge" ∅) = ∅ /\
  snd (clear_purchase_lock no_faults "/p" "p5.48xlarge"
         (snd (clear_purchase_lock no_faults "/p" "p5.48xlarge" m)))
  = snd (clear_purchase_lock no_faults "/p" "p5.48xlarge" m).
Proof.
  intros k m.
  destruct (clear_lock_idempotent no_faults "/p" "p5.48xlarge" ∅) as [H1 [H2 _]].
  destruct (clear_lock_idempotent no_faults "/p" "p5.48xlarge" m) as [_ [_ H3]].
  split; [exact H1|]. split; [apply H2; reflexivity|apply H3; reflexivity].
Defined.

(** ** Reservation discovery *)

Lemma directory_all_complete (w : world) (it : string) (cr : RawCR.t) :
  In cr (reservations w) -> RawCR.InstanceType cr = it ->
  in_states (RawCR.State cr) ["active"; "pending"; "payment-pending"] = true ->
  has_end_date cr = true ->
  In (cb_of_raw cr) (get_active_capacity_blocks false it None w).
Proof.
  intros Hin Hit Hst Hend. unfold get_active_capacity_blocks.
  apply in_map. apply filter_In. split; [|exact Hend].
  apply filter_In. split; [exact Hin|].
  unfold describe_filter. rewrite Hit, Hst, String.eqb_refl. reflexivity.
Qed.

Lemma directory_sound (fails : bool) (w : world) (it : string) (az : option string)
    (cb : CB.t) :
  In cb (get_active_capacity_blocks fails it az w) ->
  exists cr, In cr (reservations w) /\ describe_filter it az cr = true /\
             has_end_date cr = true /\ cb = cb_of_raw cr.
Proof.
  unfold get_active_capacity_blocks. destruct fails; [intros []|].
  intros Hin. apply in_map_iff in Hin as (cr & <- & Hin).
  apply filter_In in Hin as [Hin Hend]. apply filter_In in Hin as [Hin Hf].
  exists cr. auto.
Qed.

Lemma directory_instance_type (fails : bool) (w : world) (it : string)
    (az : option string) (cb : CB.t) :
  In cb (get_active_capacity_blocks fails it az w) -> CB.instance_type cb = it.
Proof.
  intros Hin. apply directory_sound in Hin as (cr & _ & Hf & _ & ->).
  unfold describe_filter in Hf. apply andb_true_iff in Hf as [Hf _].
  apply andb_true_iff in Hf as [Hf _]. apply String.eqb_eq in Hf. exact Hf.
Qed.

Lemma filter_nonempty {A} (p : A -> bool) (l : list A) (x : A) :
  In x l -> p x = true ->
  exists y rest, List.filter p l = y :: rest /\ In y l /\ p y = true.
Proof.
  intros Hin Hp. destruct (List.filter p l) as [|y rest] eqn:E.
  - assert (In x (List.filter p l)) as H by (apply filter_In; auto).
    rewrite E in H. destruct H.
  - assert (In y (List.filter p l)) as H by (rewrite E; left; reflexivity).
    apply filter_In in H as [H1 H2]. exists y, rest. auto.
Qed.

Lemma filter_none {A} (p : A -> bool) (l : list A) :
  (forall x, In x l -> p x = false) -> List.filter p l = [].
Proof.
  induction l as [|a l IH]; intros H; simpl; [reflexivity|].
  rewrite (H a (or_introl eq_refl)). apply IH. intros x Hx. apply H. right. exact Hx.
Qed.

(** ** The handler *)

Lemma purchase_flow_result (cfg : config) (f : faults) (now : Z) (it : string)
    (dur : Z) (az : option string) (w : world) :
  match fst (purchase_flow cfg f now it dur az w) with
  | Resp_locked _ | Resp_no_offerings _ | Resp_purchased _ _ | Resp_failed => True
  | _ => False
  end.
Proof.
  unfold purchase_flow.
  destruct (set_purchase_lock f now (SSM_PREFIX cfg) it (ssm w)) as [[|] m1].
  - simpl. destruct (select_offering _) as [o|]; simpl; [|exact I].
    destruct (purchase_capacity_block _ _ _ _ _) as [[rid|] w2]; exact I.
  - exact I.
Qed.

(** ** C8
    For the actions [check] and [status] the handler returns status 200
    with the reservations found across all zones and [has_active_cb], and
    the world is unchanged: no lease is read-modified, written or deleted
    and no purchase is submitted, whatever reservations exist. *)
Theorem check_status_read_only (cfg : config) (f : faults) (now : Z) (ev : Event.t)
    (w : world) :
  default "ensure" (Event.action ev) = "check" \/
  default "ensure" (Event.action ev) = "status" ->
  let active_cbs_all_az :=
    get_active_capacity_blocks (describe_all_fails f) (resolve_instance_type cfg ev) None w in
  handler cfg f now ev w =
    (Resp_status (default "ensure" (Event.action ev)) (resolve_instance_type cfg ev)
       (resolve_az cfg f ev) active_cbs_all_az
       (0 <? Z.of_nat (length active_cbs_all_az)), w)
  /\ statusCode (fst (handler cfg f now ev w)) = 200.
Proof.
  intros Hact all.
  assert (Heq : handler cfg f now ev w =
    (Resp_status (default "ensure" (Event.action ev)) (resolve_instance_type cfg ev)
       (resolve_az cfg f ev) all (0 <? Z.of_nat (length all)), w)).
  { unfold handler, all.
    destruct Hact as [-> | ->]; reflexivity. }
  split; [exact Heq|]. rewrite Heq. reflexivity.
Qed.

Definition status_event : Event.t :=
  {| Event.action := Some "status"; Event.labels := Some ["H100"];
     Event.duration_hours := None; Event.instance_type := None;
     Event.availability_zone := None |}.

Lemma check_status_read_only_witness :
  let w := world_of [raw_cr "cr-1" "active" "us-east-1b"] [offer_1d] in
  handler cfg0 no_faults T0 status_event w =
    (Resp_status "status" "p5.48xlarge" (Some "us-east-1a")
       (get_active_capacity_blocks false "p5.48xlarge" None w)
       (0 <? Z.of_nat (length (get_active_capacity_blocks false "p5.48xlarge" None w))), w)
  /\ statusCode (fst (handler cfg0 no_faults T0 status_event w)) = 200.
Proof.
  intros w. apply (check_status_read_only cfg0 no_faults T0 status_event w).
  right. reflexivity.
Defined.

(** ** C6 (as stated)
    The action value [acquire] is not accepted: the handler answers it
    with the unknown-action error, status 400. *)
Lemma acquire_action_rejected :
  let ev := {| Event.action := Some "acquire"; Event.labels := None;
               Event.duration_hours := None; Event.instance_type := None;
               Event.availability_zone := None |} in
  let w := world_of [] [offer_1d] in
  handler cfg0 no_faults T0 ev w = (Resp_unknown_action "acquire", w)
  /\ statusCode (Resp_unknown_action "acquire") = 400.
Proof. split; reflexivity. Qed.

Definition known_actions : list string := ["check"; "status"; "ensure"; "purchase"].

(** ** C6 (amended)
    The handler accepts exactly the actions [check], [status], [ensure]
    and [purchase] (a missing action is [ensure]): for these the
    unknown-action branch is not taken; any other action value gets the
    unknown-action response, status 400, with the world unchanged (no
    lease written or deleted, no purchase submitted). *)
Theorem handler_known_actions (cfg : config) (f : faults) (now : Z) (ev : Event.t)
    (w : world) :
  (In (default "ensure" (Event.action ev)) known_actions ->
   forall a, fst (handler cfg f now ev w) <> Resp_unknown_action a) /\
  (~ In (default "ensure" (Event.action ev)) known_actions ->
   handler cfg f now ev w = (Resp_unknown_action (default "ensure" (Event.action ev)), w)
   /\ statusCode (fst (handler cfg f now ev w)) = 400).
Proof.
  unfold handler.
  set (it := resolve_instance_type cfg ev).
  set (az := resolve_az cfg f ev).
  set (dur := default (DURATION_HOURS cfg) (Event.duration_hours ev)).
  set (all := get_active_capacity_blocks (describe_all_fails f) it None w).
  set (a := default "ensure" (Event.action ev)).
  split.
  - intros Hin a'.
    assert (Hpf : fst (purchase_flow cfg f now it dur az w) <> Resp_unknown_action a').
    { pose proof (purchase_flow_result cfg f now it dur az w) as H.
      intros E. rewrite E in H. exact H. }
    unfold known_actions in Hin.
    destruct Hin as [<-|[<-|[<-|[<-|[]]]]]; cbv zeta; simpl String.eqb; cbv iota;
      try discriminate; [|exact Hpf].
    destruct (List.filter is_active all); [|discriminate].
    destruct (List.filter is_pending all); [exact Hpf|discriminate].
  - intros Hnin.
    assert (Hc : String.eqb a "check" = false) by
      (apply String.eqb_neq; intros E; apply Hnin; rewrite E; left; reflexivity).
    assert (Hs : String.eqb a "status" = false) by
      (apply String.eqb_neq; intros E; apply Hnin; rewrite E; right; left; reflexivity).
    assert (He : String.eqb a "ensure" = false) by
      (apply String.eqb_neq; intros E; apply Hnin; rewrite E; do 2 right; left; reflexivity).
    assert (Hp : String.eqb a "purchase" = false) by
      (apply String.eqb_neq; intros E; apply Hnin; rewrite E; do 3 right; left; reflexivity).
    cbv zeta. rewrite Hc, Hs, He, Hp. split; reflexivity.
Qed.

Lemma handler_known_actions_witness :
  let ev := {| Event.action := Some "acquire"; Event.labels := None;
               Event.duration_hours := None; Event.instance_type := None;
               Event.availability_zone := None |} in
  let w := world_of [] [offer_1d] in
  handler cfg0 no_faults T0 ev w = (Resp_unknown_action "acquire", w)
  /\ statusCode (fst (handler cfg0 no_faults T0 ev w)) = 400.
Proof.
  intros ev w. apply (proj2 (handler_known_actions cfg0 no_faults T0 ev w)).
  unfold known_actions. simpl. intros [H|[H|[H|[H|[]]]]]; discriminate.
Defined.

Definition describe_error : faults :=
  {| describe_all_fails := true; describe_az_fails := true;
     subnets_fail := false; lock_get_fails := false;
     lock_delete_fails := false; lock_put_fails := false;
     offerings_fail := false; purchase_fails := false;
     store_info_fails := false; clear_fails := false |}.

(** ** C2 (as stated)
    When [describe_capacity_reservations] raises, the reservation list is
    taken as empty: with an active reservation in us-east-1b, an [ensure]
    for us-east-1a purchases a second Capacity Block. *)
Lemma ensure_active_missed_on_describe_error :
  let w := world_of [raw_cr "cr-b" "active" "us-east-1b"] [offer_1d] in
  let ev := ensure_event None (Some "us-east-1a") in
  result (fst (handler cfg0 describe_error T0 ev w)) = Some "purchased"
  /\ submitted (snd (handler cfg0 describe_error T0 ev w)) = ["cbr-1d"].
Proof. vm_compute. split; reflexivity. Qed.

(** When the all-zones [describe_capacity_reservations] raises, an
    [ensure] sees no reservation and takes the purchase path. *)
Lemma handler_ensure_describe_error (cfg : config) (f : faults) (now : Z) (ev : Event.t)
    (w : world) :
  default "ensure" (Event.action ev) = "ensure" ->
  describe_all_fails f = true ->
  handler cfg f now ev w =
    purchase_flow cfg f now (resolve_instance_type cfg ev)
      (default (DURATION_HOURS cfg) (Event.duration_hours ev)) (resolve_az cfg f ev) w.
Proof.
  intros Hact Hdesc. unfold handler. rewrite Hact, Hdesc. cbv zeta.
  simpl String.eqb; cbv iota. reflexivity.
Qed.

(** ** C2 (amended)
    An [ensure] for instance type X, with an active Capacity Block of
    type X in some zone: when the all-zones reservation query succeeds it
    returns [exists] carrying the first active record of type X in that
    listing, and leaves the world unchanged (no lease, no purchase),
    whatever zone the request names; when that query raises, the list is
    taken as empty and [ensure] goes on to the purchase path. *)
Theorem ensure_exists_any_zone (cfg : config) (f : faults) (now : Z) (ev : Event.t)
    (w : world) (cr : RawCR.t) :
  default "ensure" (Event.action ev) = "ensure" ->
  In cr (reservations w) ->
  RawCR.InstanceType cr = resolve_instance_type cfg ev ->
  RawCR.State cr = "active" ->
  has_end_date cr = true ->
  (describe_all_fails f = false ->
   exists cb rest, handler cfg f now ev w = (Resp_exists cb, w) /\
     List.filter is_active
       (get_active_capacity_blocks false (resolve_instance_type cfg ev) None w) = cb :: rest /\
     In cb (get_active_capacity_blocks false (resolve_instance_type cfg ev) None w) /\
     CB.state cb = "active" /\ CB.instance_type cb = resolve_instance_type cfg ev) /\
  (describe_all_fails f = true ->
   handler cfg f now ev w =
     purchase_flow cfg f now (resolve_instance_type cfg ev)
       (default (DURATION_HOURS cfg) (Event.duration_hours ev)) (resolve_az cfg f ev) w).
Proof.
  intros Hact Hin Hit Hst Hend.
  split; [|intros Hdesc; exact (handler_ensure_describe_error cfg f now ev w Hact Hdesc)].
  intros Hdesc.
  set (it := resolve_instance_type cfg ev) in *.
  pose proof (directory_all_complete w it cr Hin Hit ltac:(rewrite Hst; reflexivity) Hend)
    as Hall.
  destruct (filter_nonempty is_active _ _ Hall ltac:(unfold is_active; simpl; rewrite Hst; reflexivity))
    as (cb & rest & Hf & Hcb & Hact_cb).
  exists cb, rest. split; [|split; [exact Hf|split; [exact Hcb|split]]].
  - unfold handler. fold it. rewrite Hact, Hdesc. cbv zeta.
    simpl String.eqb; cbv iota. rewrite Hf. reflexivity.
  - apply String.eqb_eq. exact Hact_cb.
  - apply (directory_instance_type false w it None cb Hcb).
Qed.

Lemma ensure_exists_any_zone_witness :
  let w := world_of [raw_cr "cr-b" "active" "us-east-1b"] [offer_1d] in
  let ev := ensure_event None (Some "us-east-1a") in
  (exists cb rest, handler cfg0 no_faults T0 ev w = (Resp_exists cb, w) /\
     List.filter is_active
       (get_active_capacity_blocks false (resolve_instance_type cfg0 ev) None w) = cb :: rest /\
     In cb (get_active_capacity_blocks false (resolve_instance_type cfg0 ev) None w) /\
     CB.state cb = "active" /\ CB.instance_type cb = resolve_instance_type cfg0 ev) /\
  handler cfg0 describe_error T0 ev w =
    purchase_flow cfg0 describe_error T0 (resolve_instance_type cfg0 ev)
      (default (DURATION_HOURS cfg0) (Event.duration_hours ev))
      (resolve_az cfg0 describe_error ev) w.
Proof.
  intros w ev. split.
  - apply (ensure_exists_any_zone cfg0 no_faults T0 ev w (raw_cr "cr-b" "active" "us-east-1b"));
      try reflexivity. left. reflexivity.
  - apply (ensure_exists_any_zone cfg0 describe_error T0 ev w
             (raw_cr "cr-b" "active" "us-east-1b")); try reflexivity. left. reflexivity.
Defined.

(** ** C7 (as stated)
    When [describe_capacity_reservations] raises, a pending Capacity Block
    is not seen and [ensure] purchases another one. *)
Lemma ensure_pending_missed_on_describe_error :
  let w := world_of [raw_cr "cr-p" "payment-pending" "us-east-1a"] [offer_1d] in
  let ev := ensure_event None None in
  result (fst (handler cfg0 describe_error T0 ev w)) = Some "purchased"
  /\ submitted (snd (handler cfg0 describe_error T0 ev w)) = ["cbr-1d"].
Proof. vm_compute. split; reflexivity. Qed.

(** ** C7 (amended)
    An [ensure] for instance type X where no Capacity Block of type X is
    active in any zone but one is pending or payment-pending: when the
    all-zones reservation query succeeds it returns [pending] carrying the
    first such record of the listing, and leaves the world unchanged: no
    lease is taken and no purchase is submitted; when that query raises,
    the list is taken as empty and [ensure] goes on to the purchase path. *)
Theorem ensure_pending_any_zone (cfg : config) (f : faults) (now : Z) (ev : Event.t)
    (w : world) (cr : RawCR.t) :
  default "ensure" (Event.action ev) = "ensure" ->
  (forall cr', In cr' (reservations w) ->
     RawCR.InstanceType cr' = resolve_instance_type cfg ev ->
     has_end_date cr' = true -> RawCR.State cr' <> "active") ->
  In cr (reservations w) ->
  RawCR.InstanceType cr = resolve_instance_type cfg ev ->
  in_states (RawCR.State cr) ["pending"; "payment-pending"] = true ->
  has_end_date cr = true ->
  (describe_all_fails f = false ->
   exists cb rest, handler cfg f now ev w = (Resp_pending cb, w) /\
     List.filter is_pending
       (get_active_capacity_blocks false (resolve_instance_type cfg ev) None w) = cb :: rest /\
     In cb (get_active_capacity_blocks false (resolve_instance_type cfg ev) None w) /\
     is_pending cb = true /\ CB.instance_type cb = resolve_instance_type cfg ev) /\
  (describe_all_fails f = true ->
   handler cfg f now ev w =
     purchase_flow cfg f now (resolve_instance_type cfg ev)
       (default (DURATION_HOURS cfg) (Event.duration_hours ev)) (resolve_az cfg f ev) w).
Proof.
  intros Hact Hnone Hin Hit Hst Hend.
  split; [|intros Hdesc; exact (handler_ensure_describe_error cfg f now ev w Hact Hdesc)].
  intros Hdesc.
  set (it := resolve_instance_type cfg ev) in *.
  assert (Hst' : in_states (RawCR.State cr) ["active"; "pending"; "payment-pending"] = true).
  { unfold in_states in *. simpl in *. rewrite Hst. apply orb_true_r. }
  pose proof (directory_all_complete w it cr Hin Hit Hst' Hend) as Hall.
  destruct (filter_nonempty is_pending _ _ Hall Hst) as (cb & rest & Hf & Hcb & Hpend).
  assert (Hna : List.filter is_active (get_active_capacity_blocks false it None w) = []).
  { apply filter_none. intros x Hx.
    apply directory_sound in Hx as (cr' & Hin' & Hf' & Hend' & ->).
    unfold describe_filter in Hf'. apply andb_true_iff in Hf' as [Hf' _].
    apply andb_true_iff in Hf' as [Hf' _]. apply String.eqb_eq in Hf'.
    unfold is_active. simpl. apply String.eqb_neq. exact (Hnone cr' Hin' Hf' Hend'). }
  exists cb, rest. split; [|split; [exact Hf|split; [exact Hcb|split; [exact Hpend|]]]].
  - unfold handler. fold it. rewrite Hact, Hdesc. cbv zeta.
    simpl String.eqb; cbv iota. rewrite Hna, Hf. reflexivity.
  - apply (directory_instance_type false w it None cb Hcb).
Qed.

Lemma ensure_pending_any_zone_witness :
  let w := world_of [raw_cr "cr-p" "payment-pending" "us-east-1b"] [offer_1d] in
  let ev := ensure_event None (Some "us-east-1a") in
  (exists cb rest, handler cfg0 no_faults T0 ev w = (Resp_pending cb, w) /\
     List.filter is_pending
       (get_active_capacity_blocks false (resolve_instance_type cfg0 ev) None w) = cb :: rest /\
     In cb (get_active_capacity_blocks false (resolve_instance_type cfg0 ev) None w) /\
     is_pending cb = true /\ CB.instance_type cb = resolve_instance_type cfg0 ev) /\
  handler cfg0 describe_error T0 ev w =
    purchase_flow cfg0 describe_error T0 (resolve_instance_type cfg0 ev)
      (default (DURATION_HOURS cfg0) (Event.duration_hours ev))
      (resolve_az cfg0 describe_error ev) w.
Proof.
  intros w ev. split.
  - apply (ensure_pending_any_zone cfg0 no_faults T0 ev w
             (raw_cr "cr-p" "payment-pending" "us-east-1b")); try reflexivity.
    + intros cr' [<-|[]] _ _. discriminate.
    + left. reflexivity.
  - apply (ensure_pending_any_zone cfg0 describe_error T0 ev w
             (raw_cr "cr-p" "payment-pending" "us-east-1b")); try reflexivity.
    + intros cr' [<-|[]] _ _. discriminate.
    + left. reflexivity.
Defined.

(** ** The step machine and the handler

    An [ensure] invocation running alone through [ensure_step] computes
    what [handler] computes for it without faults. *)
Lemma run_alone_handler (cfg : config) (now : Z) (ev : Event.t) (w : world) :
  default "ensure" (Event.action ev) = "ensure" ->
  run_alone cfg now (resolve_instance_type cfg ev)
    (default (DURATION_HOURS cfg) (Event.duration_hours ev))
    (resolve_az cfg no_faults ev) 5 Start w
  = (Done (fst (handler cfg no_faults now ev w)), snd (handler cfg no_faults now ev w)).
Proof.
  intros Hact.
  unfold handler. rewrite Hact. cbv zeta. simpl String.eqb; cbv iota.
  set (it := resolve_instance_type cfg ev).
  set (az := resolve_az cfg no_faults ev).
  set (dur := default (DURATION_HOURS cfg) (Event.duration_hours ev)).
  simpl describe_all_fails.
  set (all := get_active_capacity_blocks false it None w).
  unfold run_alone. unfold ensure_step at 1. fold all.
  destruct (List.filter is_active all) as [|cb ?]; [|reflexivity].
  destruct (List.filter is_pending all) as [|cb ?]; [|reflexivity].
  unfold purchase_flow, set_purchase_lock, ensure_step.
  destruct (check_purchase_lock no_faults now (SSM_PREFIX cfg) it (ssm w)) as [[|] m1];
    [reflexivity|].
  simpl ssm_put_parameter. cbv iota. simpl negb. cbv iota.
  unfold buy.
  destruct (select_offering _) as [o|]; [|reflexivity].
  destruct (purchase_capacity_block _ _ _ _ _) as [[rid|] w2]; reflexivity.
Qed.

Definition race_schedule : list nat := [0; 1; 0; 1; 0; 1; 0; 1; 0; 1]%nat.

Definition race_start : sys :=
  {| procs := [Start; Start];
     shared := world_of [] [offer_3d; offer_1d; offer_7d] |}.

Definition race_end : sys :=
  run cfg0 T0 "p6-b200.48xlarge" 24 (Some "us-east-1a") race_schedule race_start.

(** ** C1 (as stated)
    Two concurrent [ensure] invocations for the same instance type, with
    no reservation and no lease in the world, interleave so that both read
    the directory, both find the lock free, both write it, and both
    purchase: two Capacity Blocks are bought and both invocations end in
    [purchased]. *)
Lemma ensure_race_two_purchases :
  map purchased (procs race_end) = [true; true]
  /\ submitted (shared race_end) = ["cbr-1d"; "cbr-3d"]
  /\ reservations (shared race_start) = []
  /\ ssm (shared race_start) = ∅.
Proof. vm_compute. repeat split; reflexivity. Qed.

(** The directory is read before the lock is taken, so the lock does not
    order the decisions either: invocation 1 reads the directory, then
    invocation 0 runs to completion (lock, purchase, release), then
    invocation 1 takes the free lock and purchases again. *)
Lemma ensure_stale_directory_two_purchases :
  let s := run cfg0 T0 "p6-b200.48xlarge" 24 (Some "us-east-1a")
             [0; 1; 0; 0; 0; 0; 1; 1; 1; 1]%nat race_start in
  map purchased (procs s) = [true; true]
  /\ submitted (shared s) = ["cbr-1d"; "cbr-3d"].
Proof. vm_compute. split; reflexivity. Qed.

(** * Further properties of the module *)

(** ** String helpers *)

Lemma lower_char_idem (c : Ascii.ascii) : lower_char (lower_char c) = lower_char c.
Proof. destruct c as [[] [] [] [] [] [] [] []]; reflexivity. Qed.

Lemma lower_idem (s : string) : lower (lower s) = lower s.
Proof. induction s as [|c s IH]; simpl; [reflexivity|]. rewrite lower_char_idem, IH. reflexivity. Qed.

Lemma string_app_cancel_l (p a b : string) : p +:+ a = p +:+ b -> a = b.
Proof.
  induction p as [|c p IH]; simpl; [auto|]. intros H. injection H. apply IH.
Qed.

Lemma lock_key_ne_cb_key (prefix it rid : string) :
  prefix +:+ "/active-cb/" +:+ rid <> lock_param_name prefix it.
Proof.
  unfold lock_param_name. intros H. apply string_app_cancel_l in H. discriminate.
Qed.

(** ** X1
    [get_instance_type_from_labels] returns [None] exactly when no label
    (lower-cased) is a key of [LABEL_TO_INSTANCE_TYPE]; otherwise it
    returns the mapping of the first label that is. *)
Theorem labels_first_match (labels : list string) :
  (get_instance_type_from_labels labels = None <->
   forall l, In l labels -> dict_get (lower l) LABEL_TO_INSTANCE_TYPE = None) /\
  (forall it, get_instance_type_from_labels labels = Some it ->
   exists pre l post, labels = pre ++ l :: post /\
     (forall x, In x pre -> dict_get (lower x) LABEL_TO_INSTANCE_TYPE = None) /\
     dict_get (lower l) LABEL_TO_INSTANCE_TYPE = Some it).
Proof.
  induction labels as [|l0 ls [IHn IHs]]; cbn [get_instance_type_from_labels In].
  - split; [split; [intros _ x []|reflexivity]|intros it Hc; discriminate].
  - destruct (dict_get (lower l0) LABEL_TO_INSTANCE_TYPE) as [t|] eqn:E.
    + split.
      * split; [intros Hc; discriminate|]. intros H. rewrite (H l0 (or_introl eq_refl)) in E. discriminate.
      * intros it [= <-]. exists [], l0, ls. split; [reflexivity|]. split; [intros x []|exact E].
    + split.
      * rewrite IHn. split.
        -- intros H x [<-|Hx]; [exact E|apply H, Hx].
        -- intros H x Hx. apply H. right. exact Hx.
      * intros it Hit. destruct (IHs it Hit) as (pre & l & post & -> & Hpre & Hl).
        exists (l0 :: pre), l, post. split; [reflexivity|]. split; [|exact Hl].
        intros x [<-|Hx]; [exact E|apply Hpre, Hx].
Qed.

Lemma labels_first_match_witness :
  get_instance_type_from_labels ["self-hosted"; "Hopper"; "b200"] = Some "p5.48xlarge" /\
  exists pre l post, ["self-hosted"; "Hopper"; "b200"] = pre ++ l :: post /\
     (forall x, In x pre -> dict_get (lower x) LABEL_TO_INSTANCE_TYPE = None) /\
     dict_get (lower l) LABEL_TO_INSTANCE_TYPE = Some "p5.48xlarge".
Proof.
  split; [reflexivity|].
  apply (proj2 (labels_first_match ["self-hosted"; "Hopper"; "b200"])). reflexivity.
Defined.

(** ** X2
    Label matching is case-insensitive: lower-casing the labels first does
    not change the result. *)
Theorem labels_case_insensitive (labels : list string) :
  get_instance_type_from_labels (map lower labels) = get_instance_type_from_labels labels.
Proof.
  induction labels as [|l ls IH]; cbn [get_instance_type_from_labels map]; [reflexivity|].
  rewrite lower_idem. destruct (dict_get (lower l) LABEL_TO_INSTANCE_TYPE); [reflexivity|exact IH].
Qed.

(** ** X3
    A label match only ever yields one of the two configured instance
    types, p6-b200.48xlarge or p5.48xlarge. *)
Theorem labels_known_types (labels : list string) (it : string) :
  get_instance_type_from_labels labels = Some it ->
  it = "p6-b200.48xlarge" \/ it = "p5.48xlarge".
Proof.
  induction labels as [|l ls IH]; cbn [get_instance_type_from_labels]; [discriminate|].
  destruct (dict_get (lower l) LABEL_TO_INSTANCE_TYPE) as [t|] eqn:E; [|exact IH].
  intros [= <-]. unfold LABEL_TO_INSTANCE_TYPE in E. simpl in E.
  repeat match goal with
  | H : context [String.eqb ?a ?b] |- _ => destruct (String.eqb a b)
  end; try injection E as <-; auto; discriminate.
Qed.

Lemma labels_known_types_witness :
  get_instance_type_from_labels ["SM100"] = Some "p6-b200.48xlarge" /\
  ("p6-b200.48xlarge" = "p6-b200.48xlarge" \/ "p6-b200.48xlarge" = "p5.48xlarge").
Proof. split; [reflexivity|]. apply (labels_known_types ["SM100"]). reflexivity. Defined.

(** ** X4
    The instance type is resolved as: a non-empty [instance_type] of the
    event; else, when some label maps, the first label's mapping; else
    [DEFAULT_INSTANCE_TYPE]. *)
Theorem resolve_instance_type_precedence (cfg : config) (ev : Event.t) :
  (forall it, Event.instance_type ev = Some it -> it <> "" ->
     resolve_instance_type cfg ev = it) /\
  (truthy (Event.instance_type ev) = false ->
   forall it, get_instance_type_from_labels (default [] (Event.labels ev)) = Some it ->
   it <> "" -> resolve_instance_type cfg ev = it) /\
  (truthy (Event.instance_type ev) = false ->
   get_instance_type_from_labels (default [] (Event.labels ev)) = None ->
   resolve_instance_type cfg ev = DEFAULT_INSTANCE_TYPE cfg).
Proof.
  unfold resolve_instance_type.
  split; [|split].
  - intros it Hev Hne. rewrite Hev. simpl.
    apply String.eqb_neq in Hne. rewrite ?Hne; simpl; rewrite ?Hne; reflexivity.
  - intros Hf it Hl Hne. rewrite Hf. simpl.
    destruct (default [] (Event.labels ev)) as [|l ls] eqn:E; [discriminate|].
    rewrite (bool_decide_false (l :: ls = [])) by discriminate. rewrite Hl. simpl. simpl.
    apply String.eqb_neq in Hne. rewrite ?Hne; simpl; rewrite ?Hne; reflexivity.
  - intros Hf Hl. rewrite Hf.
    destruct (default [] (Event.labels ev)) as [|l ls] eqn:E.
    + simpl. rewrite Hf. reflexivity.
    + rewrite (bool_decide_false (l :: ls = [])) by discriminate. rewrite Hl.
      reflexivity.
Qed.

Lemma resolve_instance_type_precedence_witness :
  resolve_instance_type cfg0 status_event = "p5.48xlarge" /\
  resolve_instance_type cfg0 (ensure_event (Some "p5.48xlarge") None) = "p5.48xlarge".
Proof.
  split.
  - apply (proj1 (proj2 (resolve_instance_type_precedence cfg0 status_event)));
      [reflexivity|reflexivity|discriminate].
  - apply (proj1 (resolve_instance_type_precedence cfg0 (ensure_event (Some "p5.48xlarge") None)));
      [reflexivity|discriminate].
Defined.

(** ** X5
    The availability zone is resolved as: a non-empty [availability_zone]
    of the event; else, when the event has no such key, a non-empty
    [AVAILABILITY_ZONE] setting; else a zone of the configured subnets
    (the first in the set's iteration order, so any of them), and [None]
    when no subnet is configured or [describe_subnets] fails. *)
Theorem resolve_az_precedence (cfg : config) (f : faults) (ev : Event.t) :
  (forall az, Event.availability_zone ev = Some az -> az <> "" ->
     resolve_az cfg f ev = Some az) /\
  (Event.availability_zone ev = None -> AVAILABILITY_ZONE cfg <> "" ->
     resolve_az cfg f ev = Some (AVAILABILITY_ZONE cfg)) /\
  ((forall x, In x (SUBNET_SET_ORDER cfg (SUBNET_AZS cfg)) <-> In x (SUBNET_AZS cfg)) ->
   subnets_fail f = false ->
   truthy (Some (default (AVAILABILITY_ZONE cfg) (Event.availability_zone ev))) = false ->
   match resolve_az cfg f ev with
   | Some a => In a (SUBNET_AZS cfg)
   | None => SUBNET_AZS cfg = []
   end) /\
  (subnets_fail f = true ->
     truthy (Some (default (AVAILABILITY_ZONE cfg) (Event.availability_zone ev))) = false ->
     resolve_az cfg f ev = None).
Proof.
  unfold resolve_az.
  assert (Hfall : truthy (Some (default (AVAILABILITY_ZONE cfg) (Event.availability_zone ev)))
                  = false ->
                  (if truthy (match Event.availability_zone ev with
                              | Some a => Some a | None => Some (AVAILABILITY_ZONE cfg) end)
                   then match Event.availability_zone ev with
                        | Some a => Some a | None => Some (AVAILABILITY_ZONE cfg) end
                   else match get_subnet_availability_zones cfg f with
                        | a :: _ => Some a | [] => None end)
                  = head (get_subnet_availability_zones cfg f)).
  { destruct (Event.availability_zone ev); simpl; intros ->;
      destruct (get_subnet_availability_zones cfg f); reflexivity. }
  split; [|split; [|split]].
  - intros az Hev Hne. rewrite Hev. simpl.
    apply String.eqb_neq in Hne. rewrite Hne. reflexivity.
  - intros Hev Hne. rewrite Hev. simpl.
    apply String.eqb_neq in Hne. rewrite Hne. reflexivity.
  - intros Hord Hs Ht. rewrite (Hfall Ht). unfold get_subnet_availability_zones.
    destruct (SUBNET_AZS cfg) as [|z l] eqn:E; [reflexivity|]. rewrite Hs.
    assert (Hz : In z (SUBNET_SET_ORDER cfg (z :: l)))
      by (apply Hord; left; reflexivity).
    assert (Ha : forall a, In a (SUBNET_SET_ORDER cfg (z :: l)) -> In a (z :: l))
      by (intros a; apply Hord).
    revert Hz Ha. destruct (SUBNET_SET_ORDER cfg (z :: l)) as [|a l']; simpl.
    + intros [].
    + intros _ Ha. apply Ha. left. reflexivity.
  - intros Hs Ht. rewrite (Hfall Ht). unfold get_subnet_availability_zones.
    destruct (SUBNET_AZS cfg); [reflexivity|]. rewrite Hs. reflexivity.
Qed.

Lemma resolve_az_precedence_witness :
  resolve_az cfg0 no_faults (ensure_event None (Some "us-east-1b")) = Some "us-east-1b" /\
  match resolve_az cfg0 no_faults (ensure_event None None) with
  | Some a => In a (SUBNET_AZS cfg0)
  | None => SUBNET_AZS cfg0 = []
  end.
Proof.
  split.
  - apply (proj1 (resolve_az_precedence cfg0 no_faults (ensure_event None (Some "us-east-1b"))));
      [reflexivity|discriminate].
  - apply (proj1 (proj2 (proj2 (resolve_az_precedence cfg0 no_faults (ensure_event None None))))).
    + intros x. vm_compute. split; intros H; exact H.
    + reflexivity.
    + reflexivity.
Defined.

(** ** X6
    Every record [get_active_capacity_blocks] returns has the requested
    instance type, a state among active, pending and payment-pending, an
    end date, and, when a non-empty zone is given, that zone. *)
Theorem directory_record_shape (fails : bool) (w : world) (it : string)
    (az : option string) (cb : CB.t) :
  In cb (get_active_capacity_blocks fails it az w) ->
  CB.instance_type cb = it /\
  in_states (CB.state cb) ["active"; "pending"; "payment-pending"] = true /\
  CB.end_date cb <> None /\
  (forall a, az = Some a -> a <> "" -> CB.availability_zone cb = a).
Proof.
  intros Hin. apply directory_sound in Hin as (cr & _ & Hf & Hend & ->).
  unfold describe_filter in Hf. apply andb_true_iff in Hf as [Hf Hz].
  apply andb_true_iff in Hf as [Hit Hst]. apply String.eqb_eq in Hit.
  simpl. split; [exact Hit|]. split; [exact Hst|]. split.
  - unfold has_end_date in Hend. destruct (RawCR.EndDate cr); congruence.
  - intros a -> Hne. simpl in Hz. apply String.eqb_neq in Hne. rewrite Hne in Hz.
    simpl in Hz. apply String.eqb_eq. exact Hz.
Qed.

Lemma directory_record_shape_witness :
  let w := world_of [raw_cr "cr-b" "active" "us-east-1b"] [] in
  let cb := cb_of_raw (raw_cr "cr-b" "active" "us-east-1b") in
  CB.instance_type cb = "p6-b200.48xlarge" /\
  in_states (CB.state cb) ["active"; "pending"; "payment-pending"] = true /\
  CB.end_date cb <> None /\
  (forall a, Some "us-east-1b" = Some a -> a <> "" -> CB.availability_zone cb = a).
Proof.
  intros w cb. apply (directory_record_shape false w "p6-b200.48xlarge" (Some "us-east-1b")).
  left. reflexivity.
Defined.

(** ** X7
    With a non-empty zone, [get_active_capacity_blocks] returns exactly
    the all-zones result restricted to that zone, in the same order. *)
Theorem directory_zone_is_filter (fails : bool) (w : world) (it az : string) :
  az <> "" ->
  get_active_capacity_blocks fails it (Some az) w =
  List.filter (fun cb => String.eqb (CB.availability_zone cb) az)
    (get_active_capacity_blocks fails it None w).
Proof.
  intros Hne. apply String.eqb_neq in Hne.
  unfold get_active_capacity_blocks. destruct fails; [reflexivity|].
  induction (reservations w) as [|cr l IH]; [reflexivity|].
  assert (Hd : describe_filter it (Some az) cr =
               describe_filter it None cr && String.eqb (RawCR.AvailabilityZone cr) az).
  { unfold describe_filter. simpl. rewrite Hne. simpl. rewrite !andb_true_r. reflexivity. }
  cbn [List.filter]. rewrite Hd.
  destruct (describe_filter it None cr); simpl andb; [|exact IH].
  destruct (String.eqb (RawCR.AvailabilityZone cr) az) eqn:Ez;
    cbn [List.filter]; destruct (has_end_date cr);
    cbn [map List.filter CB.availability_zone cb_of_raw]; rewrite ?Ez; cbv iota;
    rewrite ?IH; reflexivity.
Qed.

Lemma directory_zone_is_filter_witness :
  let w := world_of [raw_cr "cr-a" "active" "us-east-1a";
                     raw_cr "cr-b" "pending" "us-east-1b"] [] in
  get_active_capacity_blocks false "p6-b200.48xlarge" (Some "us-east-1b") w =
  List.filter (fun cb => String.eqb (CB.availability_zone cb) "us-east-1b")
    (get_active_capacity_blocks false "p6-b200.48xlarge" None w).
Proof. intros w. apply directory_zone_is_filter. discriminate. Defined.

(** ** X8
    Every offering [get_capacity_block_offerings] returns is for the
    requested instance type and duration and, when a non-empty zone is
    given, in that zone; without a zone no offering of the provider's
    answer is dropped. A failed query gives the empty list. *)
Theorem offerings_filtered (fails : bool) (it : string) (dur : Z)
    (az : option string) (w : world) :
  (forall o, In o (get_capacity_block_offerings fails it dur az w) ->
     Offering.instance_type o = it /\ Offering.duration_hours o = dur /\
     (truthy az = true -> Some (Offering.availability_zone o) = az)) /\
  (fails = false -> truthy az = false ->
     get_capacity_block_offerings fails it dur az w =
     map offering_of_raw (describe_capacity_block_offerings it dur w)) /\
  (fails = true -> get_capacity_block_offerings fails it dur az w = []).
Proof.
  unfold get_capacity_block_offerings.
  split; [|split].
  - destruct fails; [intros o []|].
    intros o Hin. apply in_map_iff in Hin as (ro & <- & Hin).
    apply filter_In in Hin as [Hin Haz].
    unfold describe_capacity_block_offerings in Hin.
    apply filter_In in Hin as [_ Hd]. apply andb_true_iff in Hd as [Hit Hdur].
    apply String.eqb_eq in Hit. apply Z.eqb_eq in Hdur.
    simpl. split; [exact Hit|]. split; [exact Hdur|].
    intros Ht. rewrite Ht in Haz. simpl in Haz. apply negb_true_iff, negb_false_iff in Haz.
    apply String.eqb_eq in Haz. rewrite Haz.
    destruct az as [a|]; [reflexivity|discriminate].
  - intros -> Ht. f_equal. rewrite Ht. simpl.
    induction (describe_capacity_block_offerings it dur w) as [|o l IH];
      [reflexivity|simpl; rewrite IH; reflexivity].
  - intros ->. reflexivity.
Qed.

Lemma offerings_filtered_witness :
  get_capacity_block_offerings false "p6-b200.48xlarge" 24 None
    (world_of [] [offer_3d; offer_1d]) =
  map offering_of_raw (describe_capacity_block_offerings "p6-b200.48xlarge" 24
    (world_of [] [offer_3d; offer_1d])).
Proof.
  apply (proj1 (proj2 (offerings_filtered false "p6-b200.48xlarge" 24 None
                         (world_of [] [offer_3d; offer_1d])))); reflexivity.
Defined.

(** ** X9
    A granted [set_purchase_lock] leaves the store as it was except that
    the lock parameter of the instance type now holds a lease stamped with
    the current time (an expired lease it deleted is overwritten). *)
Theorem lock_granted_store (f : faults) (now : Z) (prefix it : string)
    (m m' : gmap string ssm_value) :
  set_purchase_lock f now prefix it m = (true, m') ->
  m' = <[lock_param_name prefix it := LockData now it]> m.
Proof.
  lock_unfold.
  destruct (lock_get_fails f);
    [destruct (lock_put_fails f); simpl; intros H; inversion H; reflexivity|].
  destruct (m !! lock_param_name prefix it) as [[ts it'|]|] eqn:Hm;
    [|destruct (lock_put_fails f); simpl; intros H; inversion H; reflexivity
     |destruct (lock_put_fails f); simpl; intros H; inversion H; reflexivity].
  destruct (LOCK_TTL <? now - ts); [|intros H; inversion H].
  destruct (lock_delete_fails f), (lock_put_fails f); simpl; intros H; inversion H;
    [reflexivity|]. apply insert_delete_eq.
Qed.

Lemma lock_granted_store_witness :
  snd (set_purchase_lock no_faults T0 "/p" "p5.48xlarge" ∅) =
    <[lock_param_name "/p" "p5.48xlarge" := LockData T0 "p5.48xlarge"]> ∅.
Proof. apply (lock_granted_store no_faults T0 "/p" "p5.48xlarge" ∅). reflexivity. Defined.

Lemma lock_key_ne (prefix a b : string) :
  replace_dot a <> replace_dot b -> lock_param_name prefix a <> lock_param_name prefix b.
Proof.
  unfold lock_param_name. intros Hne H. apply string_app_cancel_l in H.
  apply (string_app_cancel_l "/purchase-lock-") in H. exact (Hne H).
Qed.

Lemma set_lock_other_keys (f : faults) (now : Z) (prefix it j : string)
    (m : gmap string ssm_value) :
  j <> lock_param_name prefix it ->
  snd (set_purchase_lock f now prefix it m) !! j = m !! j.
Proof.
  intros Hj. lock_unfold.
  destruct (lock_get_fails f); [destruct (lock_put_fails f); simpl;
    [reflexivity|apply lookup_insert_ne; congruence]|].
  destruct (m !! lock_param_name prefix it) as [[ts it'|]|];
    [|destruct (lock_put_fails f); simpl; [reflexivity|apply lookup_insert_ne; congruence]
     |destruct (lock_put_fails f); simpl; [reflexivity|apply lookup_insert_ne; congruence]].
  destruct (LOCK_TTL <? now - ts); [|reflexivity].
  destruct (lock_delete_fails f), (lock_put_fails f); simpl;
    rewrite ?lookup_insert_ne, ?lookup_delete_ne by congruence; reflexivity.
Qed.

(** ** X10
    Locks are per instance type: when two instance types have different
    lock names (their names differ after replacing '.' by '-'),
    [set_purchase_lock] and [clear_purchase_lock] for one of them leave
    the other's lock parameter as it was. *)
Theorem lock_per_instance_type (f : faults) (now : Z) (prefix a b : string)
    (m : gmap string ssm_value) :
  replace_dot a <> replace_dot b ->
  snd (set_purchase_lock f now prefix a m) !! lock_param_name prefix b
    = m !! lock_param_name prefix b /\
  snd (clear_purchase_lock f prefix a m) !! lock_param_name prefix b
    = m !! lock_param_name prefix b.
Proof.
  intros Hne. pose proof (lock_key_ne prefix b a (not_eq_sym Hne)) as Hk.
  split; [apply set_lock_other_keys, Hk|].
  unfold clear_purchase_lock, ssm_delete_parameter.
  destruct (clear_fails f); [reflexivity|].
  destruct (m !! lock_param_name prefix a); simpl; [|reflexivity].
  apply lookup_delete_ne. congruence.
Qed.

Lemma lock_per_instance_type_witness :
  let m := {[lock_param_name "/p" "p5.48xlarge" := LockData T0 "p5.48xlarge"]}
           : gmap string ssm_value in
  snd (set_purchase_lock no_faults T0 "/p" "p6-b200.48xlarge" m)
    !! lock_param_name "/p" "p5.48xlarge" = m !! lock_param_name "/p" "p5.48xlarge" /\
  snd (clear_purchase_lock no_faults "/p" "p6-b200.48xlarge" m)
    !! lock_param_name "/p" "p5.48xlarge" = m !! lock_param_name "/p" "p5.48xlarge".
Proof. intros m. apply lock_per_instance_type. discriminate. Defined.

(** ** X11
    [store_cb_info] writes only the [active-cb] parameter of the
    reservation: every purchase lock parameter keeps its value. *)
Theorem store_cb_info_keeps_locks (f : faults) (now : Z) (prefix it : string)
    (cr : RawCR.t) (m : gmap string ssm_value) :
  store_cb_info f now prefix cr m !! lock_param_name prefix it
    = m !! lock_param_name prefix it.
Proof.
  unfold store_cb_info, ssm_put_parameter.
  destruct (store_info_fails f); [reflexivity|]. simpl.
  apply lookup_insert_ne. apply lock_key_ne_cb_key.
Qed.

(** ** X12
    [purchase_capacity_block] submits the offering exactly once, whether
    the purchase succeeds or fails. On failure it returns [None] and writes
    nothing to SSM. On success, unless the SSM write fails, the
    [active-cb/<id>] parameter records the returned reservation id with the
    purchase time. Purchase lock parameters are never changed. *)
Theorem purchase_capacity_block_effects (f : faults) (now : Z) (prefix oid : string)
    (w : world) :
  submitted (snd (purchase_capacity_block f now prefix oid w)) = submitted w ++ [oid] /\
  (fst (purchase_capacity_block f now prefix oid w) = None ->
   ssm (snd (purchase_capacity_block f now prefix oid w)) = ssm w) /\
  (forall rid, fst (purchase_capacity_block f now prefix oid w) = Some rid ->
   store_info_fails f = false ->
   exists it az st sd ed,
     ssm (snd (purchase_capacity_block f now prefix oid w))
       !! (prefix +:+ "/active-cb/" +:+ rid) = Some (CbInfo rid it az st sd ed now)) /\
  (forall it, ssm (snd (purchase_capacity_block f now prefix oid w))
                !! lock_param_name prefix it = ssm w !! lock_param_name prefix it).
Proof.
  unfold purchase_capacity_block.
  destruct (purchase_fails f).
  { simpl. split; [reflexivity|]. split; [reflexivity|]. split; [discriminate|reflexivity]. }
  unfold ec2_purchase_capacity_block.
  destruct (find_offering oid (catalog w)) as [ro|].
  - cbn [fst snd submitted ssm set_ssm]. split; [reflexivity|]. split; [discriminate|].
    split.
    + intros rid [= <-] Hs. unfold store_cb_info, ssm_put_parameter. rewrite Hs. simpl.
      rewrite lookup_insert_eq. eauto 6.
    + intros it. unfold store_cb_info, ssm_put_parameter.
      destruct (store_info_fails f); [reflexivity|]. simpl.
      apply lookup_insert_ne. apply lock_key_ne_cb_key.
  - simpl. split; [reflexivity|]. split; [reflexivity|]. split; [discriminate|reflexivity].
Qed.

Lemma purchase_capacity_block_effects_witness :
  let w := world_of [] [offer_1d] in
  submitted (snd (purchase_capacity_block no_faults T0 "/p" "cbr-1d" w)) = ["cbr-1d"] /\
  exists it az st sd ed,
    ssm (snd (purchase_capacity_block no_faults T0 "/p" "cbr-1d" w))
      !! ("/p" +:+ "/active-cb/" +:+ "cr-0") = Some (CbInfo "cr-0" it az st sd ed T0).
Proof.
  intros w.
  destruct (purchase_capacity_block_effects no_faults T0 "/p" "cbr-1d" w)
    as [H1 [_ [H3 _]]].
  split; [exact H1|]. apply H3; reflexivity.
Defined.

(** ** Handler composition *)

Definition read_only_response (r : response) : bool :=
  match r with
  | Resp_status _ _ _ _ _ | Resp_exists _ | Resp_pending _ | Resp_unknown_action _ => true
  | _ => false
  end.

(** Either the handler answers without touching the world, or its answer
    is the one of [purchase_flow] for the resolved parameters. *)
Lemma handler_cases (cfg : config) (f : faults) (now : Z) (ev : Event.t) (w : world) :
  (read_only_response (fst (handler cfg f now ev w)) = true /\
   snd (handler cfg f now ev w) = w) \/
  handler cfg f now ev w =
    purchase_flow cfg f now (resolve_instance_type cfg ev)
      (default (DURATION_HOURS cfg) (Event.duration_hours ev)) (resolve_az cfg f ev) w.
Proof.
  unfold handler. cbv zeta.
  set (it := resolve_instance_type cfg ev).
  set (az := resolve_az cfg f ev).
  set (all := get_active_capacity_blocks (describe_all_fails f) it None w).
  destruct (String.eqb _ "check" || String.eqb _ "status"); [left; split; reflexivity|].
  destruct (String.eqb _ "ensure").
  - destruct (List.filter is_active all); [|left; split; reflexivity].
    destruct (List.filter is_pending all); [right; reflexivity|left; split; reflexivity].
  - destruct (String.eqb _ "purchase"); [right; reflexivity|left; split; reflexivity].
Qed.

Lemma purchase_flow_not_read_only (cfg : config) (f : faults) (now : Z) (it : string)
    (dur : Z) (az : option string) (w : world) :
  read_only_response (fst (purchase_flow cfg f now it dur az w)) = false.
Proof.
  pose proof (purchase_flow_result cfg f now it dur az w) as H.
  destruct (fst (purchase_flow cfg f now it dur az w)); simpl in *; tauto.
Qed.

Lemma clear_lock_removes (f : faults) (prefix it : string) (m : gmap string ssm_value) :
  clear_fails f = false ->
  snd (clear_purchase_lock f prefix it m) !! lock_param_name prefix it = None.
Proof.
  intros Hc. unfold clear_purchase_lock, ssm_delete_parameter. rewrite Hc.
  destruct (m !! lock_param_name prefix it) eqn:Hm; simpl;
    [apply lookup_delete_eq|exact Hm].
Qed.

(** ** X13
    Whenever the handler answers [no_offerings], [purchased] or [failed]
    (it held the purchase lock), the lock parameter of the resolved
    instance type is absent afterwards, unless deleting it failed: the
    [finally] clause releases the lock on every exit path. *)
Theorem handler_finally_releases_lock (cfg : config) (f : faults) (now : Z) (ev : Event.t)
    (w : world) :
  clear_fails f = false ->
  match fst (handler cfg f now ev w) with
  | Resp_no_offerings _ | Resp_purchased _ _ | Resp_failed => True
  | _ => False
  end ->
  ssm (snd (handler cfg f now ev w))
    !! lock_param_name (SSM_PREFIX cfg) (resolve_instance_type cfg ev) = None.
Proof.
  intros Hc Hr.
  destruct (handler_cases cfg f now ev w) as [[Hro _]|Hpf].
  { destruct (fst (handler cfg f now ev w)); simpl in *; try discriminate; contradiction. }
  rewrite Hpf in *. revert Hr.
  set (it := resolve_instance_type cfg ev).
  unfold purchase_flow.
  destruct (set_purchase_lock f now (SSM_PREFIX cfg) it (ssm w)) as [[|] m1];
    [|simpl; intros []].
  intros _. cbn [negb].
  destruct (select_offering _) as [o|];
    [destruct (purchase_capacity_block _ _ _ _ _) as [[rid|] w2]|];
    simpl; apply clear_lock_removes, Hc.
Qed.

Lemma handler_finally_releases_lock_witness :
  ssm (snd (handler cfg0 no_faults T0 (ensure_event None None)
              (world_of [] [offer_3d; offer_1d; offer_7d])))
    !! lock_param_name (SSM_PREFIX cfg0) (resolve_instance_type cfg0 (ensure_event None None))
  = None.
Proof. apply handler_finally_releases_lock; [reflexivity|vm_compute; exact I]. Defined.

(** ** X14
    Answers that do not involve the purchase lock ([check]/[status],
    [exists], [pending], unknown action) leave the whole world unchanged:
    no SSM parameter, reservation or submission changes. *)
Theorem handler_read_only_answers (cfg : config) (f : faults) (now : Z) (ev : Event.t)
    (w : world) :
  read_only_response (fst (handler cfg f now ev w)) = true ->
  snd (handler cfg f now ev w) = w.
Proof.
  intros Hro. destruct (handler_cases cfg f now ev w) as [[_ Hw]|Hpf]; [exact Hw|].
  rewrite Hpf in Hro. rewrite purchase_flow_not_read_only in Hro. discriminate.
Qed.

Lemma handler_read_only_answers_witness :
  snd (handler cfg0 no_faults T0 (ensure_event None (Some "us-east-1a"))
         (world_of [raw_cr "cr-b" "active" "us-east-1b"] [offer_1d]))
  = world_of [raw_cr "cr-b" "active" "us-east-1b"] [offer_1d].
Proof. apply handler_read_only_answers. vm_compute. reflexivity. Defined.

Lemma pcb_submitted (f : faults) (now : Z) (prefix oid : string) (w : world) :
  submitted (snd (purchase_capacity_block f now prefix oid w)) = submitted w ++ [oid].
Proof.
  unfold purchase_capacity_block, ec2_purchase_capacity_block.
  destruct (purchase_fails f); [reflexivity|].
  destruct (find_offering oid (catalog w)); reflexivity.
Qed.

(** ** X15
    One handler invocation submits at most one purchase, and it submits
    one only when it answers [purchased] or [failed]. *)
Theorem handler_at_most_one_purchase (cfg : config) (f : faults) (now : Z) (ev : Event.t)
    (w : world) :
  exists l, submitted (snd (handler cfg f now ev w)) = submitted w ++ l /\
    (length l <= 1)%nat /\
    (l <> [] -> match fst (handler cfg f now ev w) with
                | Resp_purchased _ _ | Resp_failed => True
                | _ => False
                end).
Proof.
  destruct (handler_cases cfg f now ev w) as [[_ Hw]|Hpf].
  { exists []. rewrite Hw, app_nil_r. split; [reflexivity|]. split; [simpl; lia|]. intros Hn; exfalso; apply Hn; reflexivity. }
  rewrite Hpf. unfold purchase_flow.
  destruct (set_purchase_lock _ _ _ _ _) as [[|] m1];
    [|exists []; rewrite app_nil_r; simpl; split; [reflexivity|split; [simpl; lia|intros Hn; exfalso; apply Hn; reflexivity]]].
  cbn [negb].
  destruct (select_offering _) as [o|];
    [|exists []; rewrite app_nil_r; simpl; split; [reflexivity|split; [simpl; lia|intros Hn; exfalso; apply Hn; reflexivity]]].
  pose proof (pcb_submitted f now (SSM_PREFIX cfg) (Offering.offering_id o)
                (set_ssm w m1)) as Hs.
  destruct (purchase_capacity_block _ _ _ _ _) as [[rid|] w2];
    exists [Offering.offering_id o]; simpl in *; rewrite Hs;
    (split; [reflexivity|split; [lia|intros _; exact I]]).
Qed.

Lemma insert_by_start_in (x y : Offering.t) (l : list Offering.t) :
  In x (insert_by_start y l) -> x = y \/ In x l.
Proof.
  induction l as [|z l IH]; simpl; [intros [<-|[]]; auto|].
  destruct (start_leb y z); simpl.
  - intros [<-|[<-|H]]; auto.
  - intros [<-|H]; [auto|]. destruct (IH H); auto.
Qed.

Lemma select_offering_in (l : list Offering.t) (o : Offering.t) :
  select_offering l = Some o -> In o l.
Proof.
  unfold select_offering.
  assert (Hs : forall x, In x (sort_by_start l) -> In x l).
  { induction l as [|y l IH]; simpl; [auto|].
    intros x Hx. apply insert_by_start_in in Hx as [->|Hx]; auto. }
  destruct (sort_by_start l) as [|x l'] eqn:E; simpl; [discriminate|].
  intros [= <-]. apply Hs. left. reflexivity.
Qed.

Lemma offering_source (fails : bool) (it : string) (dur : Z) (az : option string)
    (w : world) (o : Offering.t) :
  In o (get_capacity_block_offerings fails it dur az w) ->
  exists ro, In ro (catalog w) /\ RawOffering.InstanceType ro = it /\
    (truthy az = true -> Some (Offering.availability_zone o) = az) /\
    o = offering_of_raw ro.
Proof.
  unfold get_capacity_block_offerings. destruct fails; [intros []|].
  intros Hin. apply in_map_iff in Hin as (ro & <- & Hin).
  apply filter_In in Hin as [Hin Haz].
  unfold describe_capacity_block_offerings in Hin.
  apply filter_In in Hin as [Hin Hd]. apply andb_true_iff in Hd as [Hit _].
  apply String.eqb_eq in Hit. exists ro.
  split; [exact Hin|]. split; [exact Hit|]. split; [|reflexivity].
  intros Ht. rewrite Ht in Haz. simpl in Haz. apply negb_true_iff, negb_false_iff in Haz.
  apply String.eqb_eq in Haz. simpl. rewrite Haz.
  destruct az as [a|]; [reflexivity|discriminate].
Qed.

(** The purchase branch of [purchase_flow], unfolded. *)
Lemma purchase_flow_purchased (cfg : config) (f : faults) (now : Z) (it : string)
    (dur : Z) (az : option string) (w w' : world) (rid : string) (o : Offering.t) :
  purchase_flow cfg f now it dur az w = (Resp_purchased rid o, w') ->
  exists m1 w2,
    set_purchase_lock f now (SSM_PREFIX cfg) it (ssm w) = (true, m1) /\
    select_offering (get_capacity_block_offerings (offerings_fail f) it dur az w) = Some o /\
    purchase_capacity_block f now (SSM_PREFIX cfg) (Offering.offering_id o) (set_ssm w m1)
      = (Some rid, w2) /\
    w' = set_ssm w2 (snd (clear_purchase_lock f (SSM_PREFIX cfg) it (ssm w2))).
Proof.
  unfold purchase_flow.
  destruct (set_purchase_lock f now (SSM_PREFIX cfg) it (ssm w)) as [[|] m1] eqn:Hl;
    [|discriminate].
  cbn [negb]. change (get_capacity_block_offerings (offerings_fail f) it dur az (set_ssm w m1))
    with (get_capacity_block_offerings (offerings_fail f) it dur az w).
  destruct (select_offering _) as [o'|] eqn:Hs; [|discriminate].
  destruct (purchase_capacity_block _ _ _ _ _) as [[rid'|] w2] eqn:Hp; [|discriminate].
  intros [= <- <- <-]. exists m1, w2. auto.
Qed.

(** ** X16
    When the handler answers [purchased] with offering [o], [o] is the
    offering [select_offering] picks from the offerings listed for the
    resolved instance type, duration and zone; it is of that instance
    type, in that zone when one is set, and it is the one purchase
    submitted by the invocation. *)
Theorem handler_purchased_offering (cfg : config) (f : faults) (now : Z) (ev : Event.t)
    (w w' : world) (rid : string) (o : Offering.t) :
  handler cfg f now ev w = (Resp_purchased rid o, w') ->
  let it := resolve_instance_type cfg ev in
  let az := resolve_az cfg f ev in
  select_offering (get_capacity_block_offerings (offerings_fail f) it
                     (default (DURATION_HOURS cfg) (Event.duration_hours ev)) az w) = Some o /\
  Offering.instance_type o = it /\
  (truthy az = true -> Some (Offering.availability_zone o) = az) /\
  submitted w' = submitted w ++ [Offering.offering_id o].
Proof.
  intros H it az.
  destruct (handler_cases cfg f now ev w) as [[Hro _]|Hpf]; [rewrite H in Hro; discriminate|].
  rewrite Hpf in H.
  destruct (purchase_flow_purchased _ _ _ _ _ _ _ _ _ _ H) as (m1 & w2 & _ & Hs & Hp & ->).
  pose proof (select_offering_in _ _ Hs) as Hin.
  destruct (offering_source _ _ _ _ _ _ Hin) as (ro & _ & Hit & Haz & ->).
  split; [exact Hs|]. split; [exact Hit|]. split; [exact Haz|].
  pose proof (pcb_submitted f now (SSM_PREFIX cfg) (Offering.offering_id (offering_of_raw ro))
                (set_ssm w m1)) as Hsub.
  rewrite Hp in Hsub. exact Hsub.
Qed.

Lemma handler_purchased_offering_witness :
  let ev := ensure_event None None in
  let w := world_of [] [offer_3d; offer_1d; offer_7d] in
  select_offering (get_capacity_block_offerings false "p6-b200.48xlarge" 24
                     (Some "us-east-1a") w) = Some (offering_of_raw offer_1d) /\
  Offering.instance_type (offering_of_raw offer_1d) = "p6-b200.48xlarge" /\
  (truthy (Some "us-east-1a") = true ->
   Some (Offering.availability_zone (offering_of_raw offer_1d)) = Some "us-east-1a") /\
  submitted (snd (handler cfg0 no_faults T0 ev w))
    = submitted w ++ [Offering.offering_id (offering_of_raw offer_1d)].
Proof.
  intros ev w.
  apply (handler_purchased_offering cfg0 no_faults T0 ev w
           (snd (handler cfg0 no_faults T0 ev w)) "cr-0" (offering_of_raw offer_1d)).
  vm_compute. reflexivity.
Defined.

Lemma find_offering_some (oid : string) (l : list RawOffering.t) (ro : RawOffering.t) :
  find_offering oid l = Some ro ->
  RawOffering.CapacityBlockOfferingId ro = oid /\ In ro l.
Proof.
  induction l as [|o l IH]; simpl; [discriminate|].
  destruct (String.eqb (RawOffering.CapacityBlockOfferingId o) oid) eqn:E.
  - intros [= <-]. apply String.eqb_eq in E. auto.
  - intros H. destruct (IH H). auto.
Qed.

Lemma nodup_map_in_inj {A B} (g : A -> B) (l : list A) (x y : A) :
  NoDup (map g l) -> In x l -> In y l -> g x = g y -> x = y.
Proof.
  induction l as [|a l IH]; simpl; [intros _ []|].
  intros Hnd Hx Hy Hg. inversion Hnd as [|? ? Hnin Hnd']; subst.
  destruct Hx as [<-|Hx], Hy as [<-|Hy]; auto.
  - exfalso. apply Hnin. apply list_elem_of_In. rewrite Hg. apply in_map. exact Hy.
  - exfalso. apply Hnin. apply list_elem_of_In. rewrite <- Hg. apply in_map. exact Hx.
Qed.

(** A successful [purchase_capacity_block] adds one payment-pending
    Capacity Block record, of the purchased offering's instance type, to
    the provider's reservations. *)
Lemma pcb_success_reservation (f : faults) (now : Z) (prefix oid : string)
    (w w2 : world) (rid : string) :
  purchase_capacity_block f now prefix oid w = (Some rid, w2) ->
  exists ro cr, find_offering oid (catalog w) = Some ro /\
    reservations w2 = reservations w ++ [cr] /\
    RawCR.InstanceType cr = RawOffering.InstanceType ro /\
    RawCR.State cr = "payment-pending" /\ has_end_date cr = true.
Proof.
  unfold purchase_capacity_block, ec2_purchase_capacity_block.
  destruct (purchase_fails f); [discriminate|].
  destruct (find_offering oid (catalog w)) as [ro|] eqn:E; [|discriminate].
  intros [= _ <-]. eexists ro, _. split; [reflexivity|].
  split; [reflexivity|]. auto.
Qed.

(** ** X17
    Once an invocation has answered [purchased], a later [ensure] for the
    same instance type (with the all-zones reservation query succeeding)
    does not purchase again: it answers [exists] or [pending] and leaves
    the world unchanged. This needs the offering ids of the catalog to be
    distinct, so that the purchased id names the selected offering. *)
Theorem ensure_after_purchase_no_rebuy (cfg : config) (f1 f2 : faults) (now1 now2 : Z)
    (ev1 ev2 : Event.t) (w w' : world) (rid : string) (o : Offering.t) :
  NoDup (map RawOffering.CapacityBlockOfferingId (catalog w)) ->
  handler cfg f1 now1 ev1 w = (Resp_purchased rid o, w') ->
  default "ensure" (Event.action ev2) = "ensure" ->
  resolve_instance_type cfg ev2 = resolve_instance_type cfg ev1 ->
  describe_all_fails f2 = false ->
  exists cb, handler cfg f2 now2 ev2 w' = (Resp_exists cb, w') \/
             handler cfg f2 now2 ev2 w' = (Resp_pending cb, w').
Proof.
  intros Hnd H Hact Hit Hdesc.
  destruct (handler_cases cfg f1 now1 ev1 w) as [[Hro _]|Hpf];
    [rewrite H in Hro; discriminate|].
  rewrite Hpf in H.
  destruct (purchase_flow_purchased _ _ _ _ _ _ _ _ _ _ H) as (m1 & w2 & _ & Hs & Hp & Hw').
  pose proof (select_offering_in _ _ Hs) as Hin.
  destruct (offering_source _ _ _ _ _ _ Hin) as (ro & Hro & Hroit & _ & ->).
  destruct (pcb_success_reservation _ _ _ _ _ _ _ Hp)
    as (ro' & cr & Hfind & Hres & Hcrit & Hcrst & Hcrend).
  destruct (find_offering_some _ _ _ Hfind) as [Hid Hro'].
  assert (ro' = ro) as ->
    by (apply (nodup_map_in_inj _ _ _ _ Hnd Hro' Hro Hid)).
  set (it := resolve_instance_type cfg ev2) in *.
  assert (Hdir : In (cb_of_raw cr) (get_active_capacity_blocks false it None w')).
  { apply directory_all_complete.
    - rewrite Hw'. simpl. rewrite Hres. apply in_or_app. right. left. reflexivity.
    - rewrite Hcrit, Hroit, Hit. reflexivity.
    - rewrite Hcrst. reflexivity.
    - exact Hcrend. }
  assert (Hh : handler cfg f2 now2 ev2 w' =
    match List.filter is_active (get_active_capacity_blocks false it None w') with
    | cb :: _ => (Resp_exists cb, w')
    | [] =>
        match List.filter is_pending (get_active_capacity_blocks false it None w') with
        | cb :: _ => (Resp_pending cb, w')
        | [] => purchase_flow cfg f2 now2 it
                  (default (DURATION_HOURS cfg) (Event.duration_hours ev2))
                  (resolve_az cfg f2 ev2) w'
        end
    end).
  { unfold handler. fold it. rewrite Hact, Hdesc. cbv zeta.
    simpl String.eqb; cbv iota. reflexivity. }
  rewrite Hh.
  destruct (List.filter is_active _) as [|cb rest]; [|exists cb; left; reflexivity].
  destruct (filter_nonempty is_pending _ _ Hdir
              ltac:(unfold is_pending; simpl; rewrite Hcrst; reflexivity))
    as (cb & rest & Hf & _ & _).
  rewrite Hf. exists cb. right. reflexivity.
Qed.

Lemma ensure_after_purchase_no_rebuy_witness :
  let ev := ensure_event None None in
  let w := world_of [] [offer_3d; offer_1d; offer_7d] in
  let w' := snd (handler cfg0 no_faults T0 ev w) in
  exists cb, handler cfg0 no_faults (T0 + 1) ev w' = (Resp_exists cb, w') \/
             handler cfg0 no_faults (T0 + 1) ev w' = (Resp_pending cb, w').
Proof.
  intros ev w w'.
  apply (ensure_after_purchase_no_rebuy cfg0 no_faults no_faults T0 (T0 + 1) ev ev w w'
           "cr-0" (offering_of_raw offer_1d)).
  - apply (bool_decide_unpack _). vm_compute. reflexivity.
  - vm_compute. reflexivity.
  - reflexivity.
  - reflexivity.
  - reflexivity.
Defined.
